(** * Pre-execution protection guards of the Polygon arbitrage bot

    A shallow embedding of [protectionutilities.js]: the pure guards
    (slippage, direct-USD profit threshold, profit lock), the stateful ones
    (cooldown, MEV queue file), the guards reading remote endpoints (gas,
    balances, flash loans, pool state, oracle prices) and the composed
    pipeline [runProtections].
    The settings lists of [rpcConfig.js], the endpoint probe of [index.js]
    and the router validator of [validate-configs.js] follow the guards.

    Conventions of the embedding:
    - a JS [bigint] is a [Z]; BigInt division truncates ([Z.quot]);
    - a JS [Number] that carries money or a ratio is a binary64 [float]
      (Rocq's primitive floats are IEEE 754 doubles, as JS Numbers are);
    - millisecond clocks and the integer settings read from the process
      environment are kept in [Z];
    - a rejected promise or a thrown exception is the [Throw] outcome of the
      monad [M]; [.catch(...)] and [try/catch] are [catch_]. *)

From stdpp Require Import gmap strings pretty.
From Stdlib Require Import ZArith QArith Qround Bool List Ascii String Lia.
From Stdlib Require Import PrimFloat FloatOps SpecFloat FloatAxioms.
Import ListNotations.

Set Warnings "-inexact-float,-abstract-large-number".
Local Open Scope string_scope.
Local Open Scope Z_scope.

(* ===================================================================== *)
(** ** JavaScript values used by the guards *)
(* ===================================================================== *)

(** Exceptions the guards can raise or observe. *)
Inductive exn : Type :=
| TypeError      (* mixing BigInt and Number, BigInt(undefined), ... *)
| RangeError     (* BigInt(1.5), division by 0n *)
| SyntaxError    (* BigInt("abc"), JSON.parse of malformed text *)
| IOError        (* fs read / write failure *)
| RemoteError.   (* a remote read failed or exceeded its deadline *)

Inductive result (A : Type) : Type :=
| Ok (a : A)
| Throw (e : exn).
Arguments Ok {A} a.
Arguments Throw {A} e.

(** An operand of the arithmetic of [validateSlippage]: a bigint or a Number. *)
Inductive jsnumeric : Type :=
| JBig (z : Z)
| JNum (f : float).

(** An argument handed to [BigInt(...)]: already a bigint, a value that
    [BigInt] converts (an integral Number, a numeric string), or one that it
    rejects with an exception ([undefined], [null], a fractional Number, a
    non-numeric string). *)
Inductive BigIntArg : Type :=
| BigIntVal (z : Z)
| Convertible (z : Z)
| Inconvertible (e : exn).

Definition BigInt (a : BigIntArg) : result Z :=
  match a with
  | BigIntVal z => Ok z
  | Convertible z => Ok z
  | Inconvertible e => Throw e
  end.

(** [typeof v === 'bigint'] *)
Definition is_bigint (a : BigIntArg) : bool :=
  match a with BigIntVal _ => true | _ => false end.

(* --------------------------------------------------------------------- *)
(** *** Numbers *)

(** [Number(z)] for a bigint [z]: the nearest double, ties to even. *)
Definition Number_of_Z (z : Z) : float :=
  SF2Prim (binary_normalize prec emax z 0 false).

Definition Number_isFinite (x : float) : bool := is_finite x.

(** [x || 0] on a Number: [NaN], [0] and [-0] are falsy. *)
Definition or_zero (x : float) : float :=
  if is_nan x || is_zero x then 0%float else x.

(** The integer [n] with a sign of zero kept as JS does for [Math.floor]
    and [Math.round] (a negative argument rounding to zero gives [-0]). *)
Definition integral_float (negative : bool) (n : Z) : float :=
  if (n =? 0) && negative then neg_zero else Number_of_Z n.

(** [Math.floor]: a double with a non-negative exponent, a zero, an infinity
    or NaN is returned as it is; otherwise the exact floor of [m * 2^e]. *)
Definition Math_floor (x : float) : float :=
  match Prim2SF x with
  | S754_finite s m e =>
      if 0 <=? e then x
      else integral_float s ((if s then Z.neg m else Z.pos m) / 2 ^ (- e))
  | _ => x
  end.

(** [Math.round]: the nearest integer, ties towards +infinity, computed
    exactly as [floor (m * 2^e + 1/2)]. *)
Definition Math_round (x : float) : float :=
  match Prim2SF x with
  | S754_finite s m e =>
      if 0 <=? e then x
      else integral_float s
             (((if s then Z.neg m else Z.pos m) + 2 ^ (- e - 1)) / 2 ^ (- e))
  | _ => x
  end.

(** Comparison of a double with a bigint by mathematical value; [None] when
    the double is NaN (every relational operator is then false). *)
Definition compare_float_Z (f : float) (z : Z) : option comparison :=
  match Prim2SF f with
  | S754_nan => None
  | S754_infinity s => Some (if s then Lt else Gt)
  | S754_zero _ => Some (0 ?= z)
  | S754_finite s m e =>
      let n := if s then Z.neg m else Z.pos m in
      if 0 <=? e then Some (n * 2 ^ e ?= z) else Some (n ?= z * 2 ^ (- e))
  end.

(** [a <= b] over bigint and Number operands. *)
Definition js_le (a b : jsnumeric) : bool :=
  match a, b with
  | JBig x, JBig y => x <=? y
  | JNum x, JNum y => (x <=? y)%float
  | JNum x, JBig y =>
      match compare_float_Z x y with Some Lt | Some Eq => true | _ => false end
  | JBig x, JNum y =>
      match compare_float_Z y x with Some Gt | Some Eq => true | _ => false end
  end.

(** [a > b] over bigint and Number operands. *)
Definition js_gt (a b : jsnumeric) : bool :=
  match a, b with
  | JBig x, JBig y => y <? x
  | JNum x, JNum y => (y <? x)%float
  | JNum x, JBig y =>
      match compare_float_Z x y with Some Gt => true | _ => false end
  | JBig x, JNum y =>
      match compare_float_Z y x with Some Lt => true | _ => false end
  end.

(** [a - b]: operands of different kinds raise a TypeError. *)
Definition js_sub (a b : jsnumeric) : result jsnumeric :=
  match a, b with
  | JBig x, JBig y => Ok (JBig (x - y))
  | JNum x, JNum y => Ok (JNum (x - y)%float)
  | _, _ => Throw TypeError
  end.

(** [a * b] *)
Definition js_mul (a b : jsnumeric) : result jsnumeric :=
  match a, b with
  | JBig x, JBig y => Ok (JBig (x * y))
  | JNum x, JNum y => Ok (JNum (x * y)%float)
  | _, _ => Throw TypeError
  end.

(** [a / b]: BigInt division truncates towards zero and rejects [0n]. *)
Definition js_div (a b : jsnumeric) : result jsnumeric :=
  match a, b with
  | JBig x, JBig y => if y =? 0 then Throw RangeError else Ok (JBig (x ÷ y))
  | JNum x, JNum y => Ok (JNum (x / y)%float)
  | _, _ => Throw TypeError
  end.

(* ===================================================================== *)
(** ** Configuration read from the process environment *)
(* ===================================================================== *)

Record Config : Type := {
  PROFIT_THRESHOLD_BPS    : float;
  PROFIT_THRESHOLD_USD    : float;
  COOLDOWN_MS             : Z;
  MAX_SLIPPAGE_BPS        : Z;
  HIGH_GAS_WEI            : Z;
  GAS_LIMIT_MAX           : Z;
  MEV_LOOKBACK_MS         : Z;
  CHAINLINK_STALE_SECONDS : Z;
  AAVE_LOAN               : bool;
  BAL_LOAN                : bool;
  FLASH_FALLBACK_TOKENS   : list string
}.

(** The values used when the environment sets nothing. *)
Definition default_config : Config := {|
  PROFIT_THRESHOLD_BPS    := 100%float;
  PROFIT_THRESHOLD_USD    := 0%float;
  COOLDOWN_MS             := 3000;
  MAX_SLIPPAGE_BPS        := 100;
  HIGH_GAS_WEI            := 300 * 10 ^ 9;
  GAS_LIMIT_MAX           := 2000000;
  MEV_LOOKBACK_MS         := 10000;
  CHAINLINK_STALE_SECONDS := 180;
  AAVE_LOAN               := false;
  BAL_LOAN                := false;
  FLASH_FALLBACK_TOKENS   := []
|}.

(* ===================================================================== *)
(** ** Pure guards *)
(* ===================================================================== *)

(** *** 1) Slippage *)

Record SlippageVerdict : Type := {
  slip_ok         : bool;
  slippageBps     : Z;
  maxSlippageBps  : Z;
  slip_reason     : option string
}.

(** [slippageBps] is kept as the exact integer quotient; [Number(...)] of it
    is exact below 2^53, which covers every quotient in [0, 10000]. *)
Definition validateSlippage (cfg : Config) (expectedOut minOut : jsnumeric)
  : result SlippageVerdict :=
  if js_le expectedOut (JBig 0) then
    Ok {| slip_ok := false; slippageBps := 10000;
          maxSlippageBps := MAX_SLIPPAGE_BPS cfg;
          slip_reason := Some "expectedOut<=0" |}
  else if js_gt minOut expectedOut then
    Ok {| slip_ok := false; slippageBps := 10000;
          maxSlippageBps := MAX_SLIPPAGE_BPS cfg;
          slip_reason := Some "minOut>expectedOut" |}
  else
    match js_sub expectedOut minOut with
    | Throw e => Throw e
    | Ok diff =>
        match js_mul diff (JBig 10000) with
        | Throw e => Throw e
        | Ok scaled =>
            match js_div scaled expectedOut with
            | Throw e => Throw e
            | Ok (JNum _) => Throw TypeError (* not reached: [diff * 10000n] is a bigint *)
            | Ok (JBig q) =>
                Ok {| slip_ok := q <=? MAX_SLIPPAGE_BPS cfg;
                      slippageBps := q;
                      maxSlippageBps := MAX_SLIPPAGE_BPS cfg;
                      slip_reason := None |}
            end
        end
    end.

(** *** Direct-USD profit threshold *)

Record ProfitFigures : Type := {
  pf_ok           : bool;
  pf_profitUsd    : float;
  pf_notionalUsd  : float;
  pf_profitBps    : float;
  pf_thresholdBps : float;
  pf_thresholdUsd : float
}.

(** The two shapes of object the profit guards return. *)
Inductive ProfitVerdict : Type :=
| ProfitRejected (reason : string)
| ProfitEvaluated (v : ProfitFigures).

Definition pt_ok (v : ProfitVerdict) : bool :=
  match v with
  | ProfitRejected _ => false
  | ProfitEvaluated f => pf_ok f
  end.

(** [pt.profitUsd], [undefined] on the rejected shape. *)
Definition pt_profitUsd (v : ProfitVerdict) : option float :=
  match v with
  | ProfitRejected _ => None
  | ProfitEvaluated f => Some (pf_profitUsd f)
  end.

Definition meetsProfitThresholdUSD (cfg : Config) (profitUsd notionalUsd : float)
  : ProfitVerdict :=
  let notional := or_zero notionalUsd in
  let profit := or_zero profitUsd in
  if negb (Number_isFinite profit) || negb (Number_isFinite notional) then
    ProfitRejected "invalidInputs"
  else
    let passUsd := (PROFIT_THRESHOLD_USD cfg <=? profit)%float in
    let profitBps :=
      if (0 <? notional)%float
      then Math_floor ((profit / notional) * 10000)%float
      else 0%float in
    let passBps := (PROFIT_THRESHOLD_BPS cfg <=? profitBps)%float in
    ProfitEvaluated
      {| pf_ok := passUsd && passBps;
         pf_profitUsd := profit;
         pf_notionalUsd := notional;
         pf_profitBps := profitBps;
         pf_thresholdBps := PROFIT_THRESHOLD_BPS cfg;
         pf_thresholdUsd := PROFIT_THRESHOLD_USD cfg |}.

(** *** 8) Profit lock *)

Record LockSplit : Type := { locked : float; leftover : float }.

Definition lockProfit (profitUsd lockPct : float) : LockSplit :=
  if negb (Number_isFinite profitUsd) || (profitUsd <=? 0)%float then
    {| locked := 0%float; leftover := 0%float |}
  else
    let cents := Math_round (profitUsd * 100)%float in
    let locked_cents := Math_round (cents * lockPct)%float in
    {| locked := (locked_cents / 100)%float;
       leftover := ((cents - locked_cents) / 100)%float |}.

(* ===================================================================== *)
(** ** The world the guards run in *)
(* ===================================================================== *)

(** Fee data as a provider reports it: each field a bigint or [null]. *)
Record FeeData : Type := {
  fd_gasPrice             : option Z;
  fd_maxFeePerGas         : option Z;
  fd_maxPriorityFeePerGas : option Z
}.

(** The gas-relevant fields of a transaction request; an absent field is
    [None]; [tx_body] stands for from/to/data/value. *)
Record TxRequest : Type := {
  tx_gasPrice             : option BigIntArg;
  tx_maxFeePerGas         : option BigIntArg;
  tx_maxPriorityFeePerGas : option BigIntArg;
  tx_body                 : string
}.

(** A remote call, with the endpoint it was sent to. *)
Inductive Call : Type :=
| CallFeeData (p : nat)
| CallEstimateGas (p : nat)
| CallGetBalance (p : nat) (holder : string)
| CallBalanceOf (p : nat) (token holder : string)
| CallDecimals (p : nat) (addr : string)
| CallLatestRoundData (p : nat) (feed : string)
| CallToken0 (p : nat) (pool : string)
| CallToken1 (p : nat) (pool : string)
| CallGetReserves (p : nat) (pair : string)
| CallSlot0 (p : nat) (pool : string)
| CallLiquidity (p : nat) (pool : string).

(** What lies outside the module: the clock, the endpoint that a rotation
    makes active after a given one, the remote endpoints (a reply of [None]
    is an error or an exceeded deadline) and the [ethers] helpers.
    Contract replies are typed by their ABI; [uint112] reserves and
    [uint128] liquidity are naturals. *)
Record Env : Type := {
  clock               : nat -> Z;
  next_endpoint       : nat -> nat;
  rpc_getFeeData      : nat -> option FeeData;
  rpc_estimateGas     : nat -> option TxRequest -> option Z;
  rpc_getBalance      : nat -> string -> option Z;
  rpc_balanceOf       : nat -> string -> string -> option Z;
  rpc_decimals        : nat -> string -> option Z;
  rpc_latestRoundData : nat -> string -> option (Z * Z);
  rpc_token0          : nat -> string -> option string;
  rpc_token1          : nat -> string -> option string;
  rpc_getReserves     : nat -> string -> option (N * N * Z);
  rpc_slot0           : nat -> string -> option (option Z);
  rpc_liquidity       : nat -> string -> option N;
  formatUnits         : Z -> Z -> option float
}.

(** One record of the MEV queue file: its [timestamp] field when it is a
    number (absent or [null] otherwise) and the rest of the record. *)
Record MevEntry : Type := { timestamp : option Z; entry_rest : string }.

(** What [JSON.parse] makes of a text. *)
Inductive Json : Type :=
| JsonOther
| JsonArray (q : list MevEntry).

Inductive FileText : Type :=
| Unparseable
| Parses (j : Json).

Inductive MevFile : Type :=
| FileAbsent
| FileUnreadable
| FileContent (text : FileText).

(** The mutable state: the clock position, the active endpoint and the
    rotations asked for, the remote calls issued so far (oldest first), the
    cooldown map [lastActionAt] and the MEV queue file. *)
Record World : Type := {
  ticks        : nat;
  endpoint     : nat;
  rotations    : list string;
  calls        : list Call;
  lastActionAt : gmap string Z;
  mev_file     : MevFile;
  mev_writable : bool
}.

Definition set_ticks (n : nat) (w : World) : World :=
  {| ticks := n; endpoint := endpoint w; rotations := rotations w;
     calls := calls w; lastActionAt := lastActionAt w;
     mev_file := mev_file w; mev_writable := mev_writable w |}.

Definition set_endpoint (p : nat) (reason : string) (w : World) : World :=
  {| ticks := ticks w; endpoint := p; rotations := rotations w ++ [reason];
     calls := calls w; lastActionAt := lastActionAt w;
     mev_file := mev_file w; mev_writable := mev_writable w |}.

Definition log_call (c : Call) (w : World) : World :=
  {| ticks := ticks w; endpoint := endpoint w; rotations := rotations w;
     calls := calls w ++ [c]; lastActionAt := lastActionAt w;
     mev_file := mev_file w; mev_writable := mev_writable w |}.

Definition set_lastActionAt (m : gmap string Z) (w : World) : World :=
  {| ticks := ticks w; endpoint := endpoint w; rotations := rotations w;
     calls := calls w; lastActionAt := m;
     mev_file := mev_file w; mev_writable := mev_writable w |}.

Definition set_mev_file (f : MevFile) (w : World) : World :=
  {| ticks := ticks w; endpoint := endpoint w; rotations := rotations w;
     calls := calls w; lastActionAt := lastActionAt w;
     mev_file := f; mev_writable := mev_writable w |}.

(* --------------------------------------------------------------------- *)
(** *** The monad of the guards: state and exceptions *)

Definition M (A : Type) : Type := World -> result A * World.

Definition ret {A} (a : A) : M A := fun w => (Ok a, w).

Definition throw {A} (e : exn) : M A := fun w => (Throw e, w).

Definition bind {A B} (m : M A) (k : A -> M B) : M B :=
  fun w =>
    match m w with
    | (Ok a, w') => k a w'
    | (Throw e, w') => (Throw e, w')
    end.

(** [try { m } catch (e) { h e }], also [m.catch(h)] on a promise. *)
Definition catch_ {A} (m : M A) (h : exn -> M A) : M A :=
  fun w =>
    match m w with
    | (Ok a, w') => (Ok a, w')
    | (Throw e, w') => h e w'
    end.

Definition lift {A} (r : result A) : M A := fun w => (r, w).

Definition gets {A} (f : World -> A) : M A := fun w => (Ok (f w), w).

Definition modify (f : World -> World) : M unit := fun w => (Ok tt, f w).

Notation "x <- c1 ;; c2" := (bind c1 (fun x => c2))
  (at level 62, c1 at next level, right associativity).

(** [Promise.all]: every operand is started, the result is rejected when one
    of them is. *)
Definition Promise_all2 {A B} (a : M A) (b : M B) : M (A * B) :=
  fun w =>
    let (ra, w1) := a w in
    let (rb, w2) := b w1 in
    (match ra, rb with
     | Ok x, Ok y => Ok (x, y)
     | Throw e, _ => Throw e
     | _, Throw e => Throw e
     end, w2).

Definition Promise_all3 {A B C} (a : M A) (b : M B) (c : M C) : M (A * B * C) :=
  Promise_all2 (Promise_all2 a b) c.

Definition Promise_all4 {A B C D} (a : M A) (b : M B) (c : M C) (d : M D)
  : M (A * B * C * D) :=
  Promise_all2 (Promise_all3 a b c) d.

Section Guards.

Context (env : Env) (cfg : Config).

(** [Date.now()] *)
Definition Date_now : M Z :=
  fun w => (Ok (clock env (ticks w)), set_ticks (S (ticks w)) w).

(** A call sent to a remote endpoint: logged, then answered or failed. *)
Definition remote {A} (c : Call) (reply : option A) : M A :=
  fun w =>
    (match reply with Some a => Ok a | None => Throw RemoteError end,
     log_call c w).

(* --------------------------------------------------------------------- *)
(** *** Read helpers *)

(** Modelled from the spec: [dataprovider.js] is not among the sources. The
    endpoint pool is an ordered set with one active pointer;
    [getReadProvider] returns the active endpoint. *)
Definition getReadProvider : M nat := gets endpoint.

(** Modelled from the spec: [dataprovider.js] is not among the sources.
    Rotation advances the active pointer and records the reason. *)
Definition rotateProvider (reason : string) : M unit :=
  modify (fun w => set_endpoint (next_endpoint env (endpoint w)) reason w).

(** The jittered pause after the rotation is not modelled. *)
Definition readFailover (reason : string) : M unit :=
  catch_ (rotateProvider reason) (fun _ => ret tt).

(** The deadline of a read is part of the reply: a call that exceeds it is
    answered [None]. The rate limiter is the default pass-through. *)
Definition readCall {A} (label : string) (fn : nat -> M A) : M A :=
  provider <- getReadProvider ;;
  catch_ (fn provider)
    (fun _ =>
       _ <- readFailover label ;;
       provider <- getReadProvider ;;
       fn provider).

Definition readCallWithProvider {A} (label : string) (provider : nat)
    (fn : nat -> M A) : M A :=
  catch_ (fn provider)
    (fun _ =>
       _ <- readFailover label ;;
       p2 <- getReadProvider ;;
       fn p2).

Definition _resolveFlashFallbackTokens (runtimeList : list string) : list string :=
  let list := match runtimeList with
              | [] => FLASH_FALLBACK_TOKENS cfg
              | _ => runtimeList
              end in
  firstn 5 list.

(** [ethers.ZeroAddress] *)
Definition ZeroAddress : string := "0x0000000000000000000000000000000000000000".

(** Truthiness of an optional string: [undefined], [null] and [''] are falsy. *)
Definition truthy (s : option string) : bool :=
  match s with
  | Some s => negb (String.eqb s EmptyString)
  | None => false
  end.

(* --------------------------------------------------------------------- *)
(** *** 2) Gas *)

(** The merged fee record: the request's own fields first, the fetched ones
    next. *)
Record Fee : Type := {
  gasPrice             : option BigIntArg;
  maxFeePerGas         : option BigIntArg;
  maxPriorityFeePerGas : option BigIntArg
}.

(** The fee fields of an accepted verdict: those of the model in use. *)
Inductive FeesUsed : Type :=
| Fees1559 (maxFee maxPriority : option BigIntArg)
| FeesLegacy (price : option BigIntArg).

Inductive GasVerdict : Type :=
| GasRejected (reason : string) (value : option Z)
| GasAccepted (gasLimit : Z) (fees : FeesUsed).

Definition gas_ok (v : GasVerdict) : bool :=
  match v with GasAccepted _ _ => true | GasRejected _ _ => false end.

(** [x != null] *)
Definition present {A} (x : option A) : bool :=
  match x with Some _ => true | None => false end.

(** [a ?? b] where [b] is a fetched bigint or [null]. *)
Definition coalesce_fee (a : option BigIntArg) (b : option Z) : option BigIntArg :=
  match a with
  | Some v => Some v
  | None => option_map BigIntVal b
  end.

(** [txRequest?.field] *)
Definition tx_field (f : TxRequest -> option BigIntArg) (tx : option TxRequest)
  : option BigIntArg :=
  match tx with Some t => f t | None => None end.

(** The first statement of [assessGas]: the fee data, or [null]. *)
Definition fetchFee (txRequest : option TxRequest) : M (option Fee) :=
  catch_
    (readCall "feeData"
       (fun p =>
          fd <- remote (CallFeeData p) (rpc_getFeeData env p) ;;
          ret (Some
                 {| gasPrice := coalesce_fee (tx_field tx_gasPrice txRequest)
                                  (fd_gasPrice fd);
                    maxFeePerGas := coalesce_fee (tx_field tx_maxFeePerGas txRequest)
                                      (fd_maxFeePerGas fd);
                    maxPriorityFeePerGas :=
                      coalesce_fee (tx_field tx_maxPriorityFeePerGas txRequest)
                        (fd_maxPriorityFeePerGas fd) |})))
    (fun _ => ret None).

(** The gas estimate of [assessGas], [0n] when the read fails. *)
Definition estimateGasLimit (txRequest : option TxRequest) : M Z :=
  catch_
    (readCall "estimateGas"
       (fun p => remote (CallEstimateGas p) (rpc_estimateGas env p txRequest)))
    (fun _ => ret 0).

(** [typeof v === 'bigint' ? v : BigInt(v)]; [BigInt(null)] is a TypeError. *)
Definition as_bigint (v : option BigIntArg) : result Z :=
  match v with
  | Some (BigIntVal z) => Ok z
  | Some a => BigInt a
  | None => Throw TypeError
  end.

(** The fee ceiling of [assessGas]: the verdict it returns early, if any. *)
Definition feeCeiling (fee : Fee) (using1559 : bool) : option GasVerdict :=
  if using1559 then
    match as_bigint (maxFeePerGas fee) with
    | Ok mfp =>
        if HIGH_GAS_WEI cfg <? mfp
        then Some (GasRejected "maxFeePerGasTooHigh" (Some mfp))
        else None
    | Throw _ => Some (GasRejected "maxFeePerGasCastError" None)
    end
  else
    match as_bigint (gasPrice fee) with
    | Ok gp =>
        if HIGH_GAS_WEI cfg <? gp
        then Some (GasRejected "gasPriceTooHigh" (Some gp))
        else None
    | Throw _ => Some (GasRejected "gasPriceCastError" None)
    end.

Definition assessGas (txRequest : option TxRequest) : M GasVerdict :=
  fee <- fetchFee txRequest ;;
  match fee with
  | None => ret (GasRejected "feeDataNull" None)
  | Some fee =>
      let using1559 :=
        present (maxFeePerGas fee) && present (maxPriorityFeePerGas fee) in
      if negb using1559 && negb (present (gasPrice fee)) then
        ret (GasRejected "noGasPriceAndNo1559" None)
      else
        match feeCeiling fee using1559 with
        | Some refused => ret refused
        | None =>
            gasLimit <- estimateGasLimit txRequest ;;
            if gasLimit =? 0 then ret (GasRejected "gasEstimationFailed" None)
            else if GAS_LIMIT_MAX cfg <? gasLimit
                 then ret (GasRejected "gasLimitTooHigh" (Some gasLimit))
                 else ret (GasAccepted gasLimit
                             (if using1559
                              then Fees1559 (maxFeePerGas fee)
                                     (maxPriorityFeePerGas fee)
                              else FeesLegacy (gasPrice fee)))
        end
  end.

(* --------------------------------------------------------------------- *)
(** *** 3) Profit threshold through Chainlink feeds *)

(** [10 ** dec] for an integral [dec] (correctly rounded). *)
Definition pow10 (dec : Z) : float := Number_of_Z (10 ^ dec).

(** [feedMap?.[token]]: an absent token reads the property ["undefined"]. *)
Definition feed_of (feedMap : gmap string string) (token : option string)
  : option string :=
  feedMap !! (match token with Some t => t | None => "undefined" end).

(** Decimals and timestamps are kept as integers ([Number(...)] of a [uint8]
    or of an epoch is exact and finite); the four lookups, issued together in
    the source, run left to right here. *)
Definition fetchPrice (provider : nat) (feedMap : gmap string string)
    (token : option string) : M (option float) :=
  let feedAddr := feed_of feedMap token in
  if negb (truthy feedAddr) then ret None
  else
    let feed := default EmptyString feedAddr in
    catch_
      (readCallWithProvider ("chainlink.latest:" ++ feed) provider
         (fun p =>
            r <- Promise_all2
                   (remote (CallDecimals p feed) (rpc_decimals env p feed))
                   (remote (CallLatestRoundData p feed)
                      (rpc_latestRoundData env p feed)) ;;
            let dec := fst r in
            let answer := Number_of_Z (fst (snd r)) in
            let updatedAt := snd (snd r) in
            if dec <? 0 then ret None
            else if negb (Number_isFinite answer) || (answer <=? 0)%float
                 then ret None
                 else
                   stale <-
                     (if 0 <? CHAINLINK_STALE_SECONDS cfg then
                        now <- Date_now ;;
                        ret (CHAINLINK_STALE_SECONDS cfg <? now / 1000 - updatedAt)
                      else ret false) ;;
                   if (stale : bool) then ret None
                   else ret (Some (answer / pow10 dec)%float)))
      (fun _ => ret None).

Definition fetchTokenDecimals (provider : nat) (token : option string) : M Z :=
  if negb (truthy token) || String.eqb (default EmptyString token) ZeroAddress then ret 18
  else
    let t := default EmptyString token in
    catch_
      (readCallWithProvider ("erc20.decimals:" ++ t) provider
         (fun p =>
            catch_ (remote (CallDecimals p t) (rpc_decimals env p t))
              (fun _ => ret 18)))
      (fun _ => ret 18).

Definition meetsProfitThresholdUSD_Chainlink (provider : nat)
    (profitToken : option string) (profitAmountWei : option Z)
    (notionalToken : option string) (notionalAmountWei : option Z)
    (feedMap : gmap string string) : M ProfitVerdict :=
  catch_
    (r <- Promise_all4
            (fetchPrice provider feedMap profitToken)
            (fetchPrice provider feedMap notionalToken)
            (fetchTokenDecimals provider profitToken)
            (fetchTokenDecimals provider notionalToken) ;;
     let '(profitPrice, notionalPrice, profitDec, notionalDec) := r in
     match profitPrice, notionalPrice with
     | Some pp, Some np =>
         match formatUnits env (default 0 profitAmountWei) profitDec,
               formatUnits env (default 0 notionalAmountWei) notionalDec with
         | Some pa, Some na =>
             ret (meetsProfitThresholdUSD cfg (pa * pp)%float (na * np)%float)
         | _, _ => throw TypeError
         end
     | _, _ => ret (ProfitRejected "missingOrStaleFeed")
     end)
    (fun _ => ret (ProfitRejected "chainlinkError")).

(* --------------------------------------------------------------------- *)
(** *** 4) Cooldown *)

Record CooldownVerdict : Type := { cd_ok : bool; msRemaining : option Z }.

Definition enforceCooldown (key : string) : M CooldownVerdict :=
  now <- Date_now ;;
  last <- gets (fun w => default 0 (lastActionAt w !! key)) ;;
  if now - last <? COOLDOWN_MS cfg then
    ret {| cd_ok := false; msRemaining := Some (COOLDOWN_MS cfg - (now - last)) |}
  else
    _ <- modify (fun w => set_lastActionAt (<[key := now]> (lastActionAt w)) w) ;;
    ret {| cd_ok := true; msRemaining := None |}.

(* --------------------------------------------------------------------- *)
(** *** 5) Flash-loan availability *)

Record FlashCandidate : Type := {
  fc_type   : string;
  fc_token  : string;
  fc_addr   : string;
  fc_needed : BigIntArg
}.

Inductive FlashVerdict : Type :=
| FlashRejected (reason : string) (sources : option (bool * bool))
| FlashAccepted (aave balancer : bool).

Definition fl_ok (v : FlashVerdict) : bool :=
  match v with FlashAccepted _ _ => true | FlashRejected _ _ => false end.

Definition checkBalance (token addr : string) (needed : BigIntArg) : M bool :=
  catch_
    (readCall ("erc20.balanceOf:" ++ token)
       (fun p =>
          bal <- remote (CallBalanceOf p token addr) (rpc_balanceOf env p token addr) ;;
          n <- lift (BigInt needed) ;;
          ret (n <=? bal)))
    (fun _ => ret false).

(** [for (const c of cs) if (await checkBalance(...)) { found = true; break; }] *)
Fixpoint firstWithBalance (cs : list FlashCandidate) : M bool :=
  match cs with
  | [] => ret false
  | c :: rest =>
      b <- checkBalance (fc_token c) (fc_addr c) (fc_needed c) ;;
      if (b : bool) then ret true else firstWithBalance rest
  end.

Definition isFlashLoanAvailable (candidates : list FlashCandidate) : M FlashVerdict :=
  if negb (AAVE_LOAN cfg) && negb (BAL_LOAN cfg) then
    ret (FlashRejected "loansDisabledInEnv" None)
  else
    aaveOk <- (if AAVE_LOAN cfg
               then firstWithBalance
                      (List.filter (fun c => String.eqb (fc_type c) "aave") candidates)
               else ret false) ;;
    balOk <- (if BAL_LOAN cfg
              then firstWithBalance
                     (List.filter (fun c => String.eqb (fc_type c) "balancer") candidates)
              else ret false) ;;
    if (aaveOk : bool) || (balOk : bool) then ret (FlashAccepted aaveOk balOk)
    else ret (FlashRejected "noLiquidity" (Some (aaveOk, balOk))).

(* --------------------------------------------------------------------- *)
(** *** 6) Fallback token *)

Inductive FallbackVerdict : Type :=
| FallbackFound (token : string) (balance : Z)
| FallbackNone.

Fixpoint chooseFallbackToken (wallet : string) (tokens : list string) (minAmt : Z)
  : M FallbackVerdict :=
  match tokens with
  | [] => ret FallbackNone
  | t :: rest =>
      res <- catch_
               (readCall ("erc20.balanceOf:" ++ t)
                  (fun p =>
                     b <- remote (CallBalanceOf p t wallet)
                            (rpc_balanceOf env p t wallet) ;;
                     ret (Some b)))
               (fun _ => ret None) ;;
      match res with
      | Some b =>
          if negb (b =? 0) && (minAmt <? b) then ret (FallbackFound t b)
          else chooseFallbackToken wallet rest minAmt
      | None => chooseFallbackToken wallet rest minAmt
      end
  end.

(* --------------------------------------------------------------------- *)
(** *** 7) Wallet balance *)

Record WalletVerdict : Type := { wb_ok : bool; wb_balance : Z }.

Definition hasWalletBalance (wallet : string) (token : option string)
    (needed : BigIntArg) : M WalletVerdict :=
  minRequiredWei <- lift (BigInt needed) ;;
  if negb (truthy token) || String.eqb (default EmptyString token) ZeroAddress then
    bal <- catch_
             (readCall "getBalance"
                (fun p =>
                   b <- remote (CallGetBalance p wallet) (rpc_getBalance env p wallet) ;;
                   ret (Some b)))
             (fun _ => ret None) ;;
    ret {| wb_ok := match bal with Some b => minRequiredWei <=? b | None => false end;
           wb_balance := default 0 bal |}
  else
    let t := default EmptyString token in
    ercBal <- catch_
                (readCall ("erc20.balanceOf:" ++ t)
                   (fun p =>
                      b <- remote (CallBalanceOf p t wallet)
                             (rpc_balanceOf env p t wallet) ;;
                      ret (Some b)))
                (fun _ => ret None) ;;
    ret {| wb_ok := match ercBal with Some b => minRequiredWei <=? b | None => false end;
           wb_balance := default 0 ercBal |}.

(* --------------------------------------------------------------------- *)
(** *** 9) and 10) Pool state *)

Inductive PoolState : Type :=
| V2Reserves (token0 token1 : string) (r0 r1 : N) (tsLast : Z) (ts : Z)
| V3State (token0 token1 : string) (sqrtPriceX96 : Z) (liquidity : N) (ts : Z).

Definition getV2Reserves (pair : string) : M (option PoolState) :=
  catch_
    (readCall ("v2.getReserves:" ++ pair)
       (fun p =>
          r <- Promise_all3
                 (remote (CallToken0 p pair) (rpc_token0 env p pair))
                 (remote (CallToken1 p pair) (rpc_token1 env p pair))
                 (remote (CallGetReserves p pair) (rpc_getReserves env p pair)) ;;
          let '(t0, t1, (r0, r1, tsLast)) := r in
          now <- Date_now ;;
          ret (Some (V2Reserves t0 t1 r0 r1 tsLast now))))
    (fun _ => ret None).

Definition getV3State (pool : string) : M (option PoolState) :=
  catch_
    (readCall ("v3.slot0:" ++ pool)
       (fun p =>
          r <- Promise_all4
                 (remote (CallSlot0 p pool) (rpc_slot0 env p pool))
                 (remote (CallLiquidity p pool) (rpc_liquidity env p pool))
                 (remote (CallToken0 p pool) (rpc_token0 env p pool))
                 (remote (CallToken1 p pool) (rpc_token1 env p pool)) ;;
          let '(slot0, liquidity, t0, t1) := r in
          now <- Date_now ;;
          ret (Some (V3State t0 t1 (default 0 slot0) liquidity now))))
    (fun _ => ret None).

(* --------------------------------------------------------------------- *)
(** *** 11) MEV risk *)

Record MevVerdict : Type := { risk : bool }.

Definition fs_existsSync : M bool :=
  gets (fun w => match mev_file w with FileAbsent => false | _ => true end).

Definition fs_readFileSync : M FileText :=
  fun w =>
    (match mev_file w with FileContent t => Ok t | _ => Throw IOError end, w).

Definition JSON_parse (t : FileText) : result Json :=
  match t with
  | Unparseable => Throw SyntaxError
  | Parses j => Ok j
  end.

(** [fs.writeFileSync(MEV_FILE, JSON.stringify(keep))] *)
Definition fs_writeFileSync (keep : list MevEntry) : M unit :=
  fun w =>
    if mev_writable w
    then (Ok tt, set_mev_file (FileContent (Parses (JsonArray keep))) w)
    else (Throw IOError, w).

(** The loop over the queue: [recent] and [keep] after each entry. *)
Definition scanQueue (now : Z) (q : list MevEntry) : bool * list MevEntry :=
  fold_left
    (fun (acc : bool * list MevEntry) e =>
       let ts := default 0 (timestamp e) in
       if now - ts <? MEV_LOOKBACK_MS cfg then (true, (snd acc ++ [e])%list) else acc)
    q (false, []).

Definition isMEVRisk : M MevVerdict :=
  catch_
    (present <- fs_existsSync ;;
     if negb present then ret {| risk := false |}
     else
       raw <- fs_readFileSync ;;
       q <- lift (JSON_parse raw) ;;
       match q with
       | JsonOther => ret {| risk := false |}
       | JsonArray q =>
           now <- Date_now ;;
           let (recent, keep) := scanQueue now q in
           _ <- (if negb (List.length keep =? List.length q)%nat
                 then catch_ (fs_writeFileSync keep) (fun _ => ret tt)
                 else ret tt) ;;
           ret {| risk := recent |}
       end)
    (fun _ => ret {| risk := true |}).

(* --------------------------------------------------------------------- *)
(** *** 12) Reserve trade check *)

Definition lower_ascii (c : ascii) : ascii :=
  let n := nat_of_ascii c in
  if ((65 <=? n) && (n <=? 90))%nat then ascii_of_nat (n + 32) else c.

(** [s.toLowerCase()] on the ASCII letters of an address. *)
Fixpoint toLowerCase (s : string) : string :=
  match s with
  | EmptyString => EmptyString
  | String c rest => String (lower_ascii c) (toLowerCase rest)
  end.

Record ReserveArgs : Type := {
  rt_provider     : nat;
  poolType        : string;
  poolAddress     : string;
  pairAddress     : string;
  tokenIn         : option string;
  desiredAmount   : BigIntArg;
  slippagePercent : option Q
}.

Inductive PoolInfo : Type :=
| InfoV2 (token0 token1 : string) (r0 r1 : Z)
| InfoV3 (token0 token1 : string) (liquidity : Z) (sqrtPriceX96 : Z).

Record ReserveResult : Type := { safeAmount : Z; info : option PoolInfo }.

(** [Math.max(0, Math.min(99, Math.floor(slippagePercent || 1)))], with the
    default value [1] of an absent [slippagePercent]. *)
Definition clampedSlippage (slippagePercent : option Q) : Z :=
  let s := default (inject_Z 1) slippagePercent in
  let s := if Qeq_bool s (inject_Z 0) then inject_Z 1 else s in
  Z.max 0 (Z.min 99 (Qfloor s)).

(** The contract reads go to the provider handed in, without failover. *)
Definition reserveTradeCheck (a : ReserveArgs) : M ReserveResult :=
  catch_
    (let slippagePercent := clampedSlippage (slippagePercent a) in
     let provider := rt_provider a in
     if String.eqb (poolType a) "V2" then
       let pair := pairAddress a in
       r <- Promise_all3
              (remote (CallToken0 provider pair) (rpc_token0 env provider pair))
              (remote (CallToken1 provider pair) (rpc_token1 env provider pair))
              (remote (CallGetReserves provider pair)
                 (rpc_getReserves env provider pair)) ;;
       let '(t0, t1, (reserve0, reserve1, _)) := r in
       let r0 := Z.of_N reserve0 in
       let r1 := Z.of_N reserve1 in
       tin <- lift (match tokenIn a with
                    | Some t => Ok (toLowerCase t)
                    | None => Throw TypeError
                    end) ;;
       let reserveIn := if String.eqb (toLowerCase t0) tin then r0 else r1 in
       let safe := (reserveIn * (100 - slippagePercent)) ÷ 100 in
       want <- lift (BigInt (desiredAmount a)) ;;
       ret {| safeAmount := if want <? safe then want else safe;
              info := Some (InfoV2 t0 t1 r0 r1) |}
     else if String.eqb (poolType a) "V3" then
       let pool := poolAddress a in
       r <- Promise_all4
              (remote (CallSlot0 provider pool) (rpc_slot0 env provider pool))
              (remote (CallLiquidity provider pool) (rpc_liquidity env provider pool))
              (remote (CallToken0 provider pool) (rpc_token0 env provider pool))
              (remote (CallToken1 provider pool) (rpc_token1 env provider pool)) ;;
       let '(slot0, liquidity, t0, t1) := r in
       let liq := Z.of_N liquidity in
       let safe := (liq * (100 - slippagePercent)) ÷ 100 in
       want <- lift (BigInt (desiredAmount a)) ;;
       ret {| safeAmount := if want <? safe then want else safe;
              info := Some (InfoV3 t0 t1 liq (default 0 slot0)) |}
     else ret {| safeAmount := 0; info := None |})
    (fun _ => ret {| safeAmount := 0; info := None |}).

(* --------------------------------------------------------------------- *)
(** *** The composed guard *)

Record NeededBalance : Type := {
  nb_token     : option string;
  nb_amountWei : BigIntArg
}.

(** The fields [runProtections] reads from its argument; an absent field is
    [None] (or the empty list, for the two lists that default to it). A
    [profitUsd] or [notionalUsd] that is not a Number is [None]. *)
Record Params : Type := {
  routeKey          : string;
  expectedOut       : jsnumeric;
  minOut            : jsnumeric;
  txRequest         : option TxRequest;
  profitUsd         : option float;
  notionalUsd       : option float;
  profitToken       : option string;
  profitAmountWei   : option Z;
  notionalToken     : option string;
  notionalAmountWei : option Z;
  feedMap           : gmap string string;
  wallet            : string;
  v2PairAddr        : option string;
  v3PoolAddr        : option string;
  fallbackTokens    : list string;
  neededBalance     : option NeededBalance;
  flashCandidates   : list FlashCandidate
}.

Inductive Details : Type :=
| DCooldown (cd : CooldownVerdict)
| DMev (mev : MevVerdict)
| DSlippage (slip : SlippageVerdict)
| DProfit (pt : ProfitVerdict)
| DGas (gas : GasVerdict)
| DWallet (wb : WalletVerdict)
| DFlash (fl : FlashVerdict)
| DAll (slip : SlippageVerdict) (pt : ProfitVerdict) (gas : GasVerdict)
       (reserves : option PoolState) (fallback : option FallbackVerdict)
       (lock : LockSplit).

Definition Trace : Type := list (string * Z).

Record Verdict : Type := {
  ok      : bool;
  reason  : option string;
  details : Details;
  trace   : Trace
}.

Definition rejected (why : string) (d : Details) (tr : Trace) : Verdict :=
  {| ok := false; reason := Some why; details := d; trace := tr |}.

(** [function step(name) { trace.push({ name, ms: Date.now() - t0 }) }] *)
Definition step (t0 : Z) (name : string) (tr : Trace) : M Trace :=
  now <- Date_now ;;
  ret (tr ++ [(name, now - t0)])%list.

(** [Number.isFinite(x)] on a field that may not be a Number. *)
Definition isFiniteNumber (x : option float) : bool :=
  match x with
  | Some f => Number_isFinite f
  | None => false
  end.

(** The verdict of a conditional step when it ran and did not pass. *)
Definition failing {A} (passes : A -> bool) (v : option A) : option A :=
  match v with
  | Some x => if passes x then None else Some x
  | None => None
  end.

(** [neededBalance?.token] *)
Definition needed_token (nb : option NeededBalance) : option string :=
  match nb with
  | Some b => nb_token b
  | None => None
  end.

Definition runProtections (params : Params) : M Verdict :=
  t0 <- Date_now ;;
  cd <- enforceCooldown (routeKey params) ;;
  trace <- step t0 "cooldown" [] ;;
  if negb (cd_ok cd) then ret (rejected "cooldown" (DCooldown cd) trace) else
  mev <- isMEVRisk ;;
  trace <- step t0 "mev" trace ;;
  if risk mev then ret (rejected "mevRisk" (DMev mev) trace) else
  slip <- lift (validateSlippage cfg (expectedOut params) (minOut params)) ;;
  trace <- step t0 "slippage" trace ;;
  if negb (slip_ok slip) then ret (rejected "slippage" (DSlippage slip) trace) else
  pt <- (if isFiniteNumber (profitUsd params) && isFiniteNumber (notionalUsd params)
         then ret (meetsProfitThresholdUSD cfg
                     (default 0%float (profitUsd params))
                     (default 0%float (notionalUsd params)))
         else
           provider <- getReadProvider ;;
           meetsProfitThresholdUSD_Chainlink provider
             (profitToken params) (profitAmountWei params)
             (notionalToken params) (notionalAmountWei params)
             (feedMap params)) ;;
  trace <- step t0 "profit" trace ;;
  if negb (pt_ok pt) then ret (rejected "profitBelowThreshold" (DProfit pt) trace) else
  gas <- assessGas (txRequest params) ;;
  trace <- step t0 "gas" trace ;;
  if negb (gas_ok gas) then ret (rejected "gasBad" (DGas gas) trace) else
  (* the wallet step: [None] when it is skipped *)
  wb <- (if truthy (needed_token (neededBalance params)) then
           wb <- hasWalletBalance (wallet params)
                   (needed_token (neededBalance params))
                   (match neededBalance params with
                    | Some b => nb_amountWei b
                    | None => Inconvertible TypeError
                    end) ;;
           ret (Some wb)
         else ret None) ;;
  trace <- step t0 "walletBalance" trace ;;
  match failing wb_ok wb with
  | Some wb => ret (rejected "insufficientBalance" (DWallet wb) trace)
  | None =>
  (* the flash-loan step: [None] when it is skipped *)
  fl <- (match flashCandidates params with
         | [] => ret None
         | _ => fl <- isFlashLoanAvailable (flashCandidates params) ;; ret (Some fl)
         end) ;;
  trace <- step t0 "flashLoan" trace ;;
  match failing fl_ok fl with
  | Some fl => ret (rejected "flashNotAvailable" (DFlash fl) trace)
  | None =>
  reserves <- (if truthy (v2PairAddr params)
               then getV2Reserves (default EmptyString (v2PairAddr params))
               else if truthy (v3PoolAddr params)
                    then getV3State (default EmptyString (v3PoolAddr params))
                    else ret None) ;;
  trace <- step t0 "poolState" trace ;;
  let fbTokens := _resolveFlashFallbackTokens (fallbackTokens params) in
  fallback <- (match fbTokens with
               | [] => ret None
               | _ => fb <- chooseFallbackToken (wallet params) fbTokens 0 ;;
                      ret (Some fb)
               end) ;;
  trace <- step t0 "fallback" trace ;;
  let lock := lockProfit
                (default (default 0%float (profitUsd params)) (pt_profitUsd pt))
                0.75%float in
  trace <- step t0 "lock" trace ;;
  ret {| ok := true; reason := None;
         details := DAll slip pt gas reserves fallback lock; trace := trace |}
  end
  end.

End Guards.

(* ===================================================================== *)
(** ** Comma-separated settings

    [FLASH_FALLBACK_TOKENS] of [protectionutilities.js] and [POLYGON_RPCS]
    of [rpcConfig.js] are read from the process environment with
    [split(',').map(s => s.trim()).filter(Boolean)]. A character stands for
    a code unit below 256. *)
(* ===================================================================== *)

(** The code units below 256 that [trim] strips: tab, line feed, vertical
    tab, form feed, carriage return, space and no-break space. *)
Definition isWhiteSpace (c : ascii) : bool :=
  let n := nat_of_ascii c in
  ((9 <=? n) && (n <=? 13) || (n =? 32) || (n =? 160))%nat.

(** [s.split(sep)] for a separator of one character: never an empty list. *)
Fixpoint String_split (sep : ascii) (s : string) : list string :=
  match s with
  | EmptyString => [EmptyString]
  | String c r =>
      if Ascii.eqb c sep then EmptyString :: String_split sep r
      else match String_split sep r with
           | h :: t => String c h :: t
           | [] => [String c EmptyString]
           end
  end.

Fixpoint trimStart (s : string) : string :=
  match s with
  | EmptyString => EmptyString
  | String c r => if isWhiteSpace c then trimStart r else s
  end.

Fixpoint trimEnd (s : string) : string :=
  match s with
  | EmptyString => EmptyString
  | String c r =>
      match trimEnd r with
      | EmptyString => if isWhiteSpace c then EmptyString else String c EmptyString
      | r' => String c r'
      end
  end.

(** [s.trim()] *)
Definition String_trim (s : string) : string := trimEnd (trimStart s).

(** [Boolean(s)] on a string. *)
Definition Boolean (s : string) : bool := negb (String.eqb s EmptyString).

(** [s.split(',').map(u => u.trim()).filter(Boolean)] *)
Definition commaList (s : string) : list string :=
  List.filter Boolean (List.map String_trim (String_split "," s)).

(** [(process.env.FLASH_FALLBACK_TOKENS || '').split(',')...]: the setting
    as found in the environment, [None] when it is not set. *)
Definition FLASH_FALLBACK_TOKENS_of (setting : option string) : list string :=
  commaList (default EmptyString setting).

(* ===================================================================== *)
(** ** Start-up: choosing a reachable endpoint ([rpcConfig.js], [index.js]) *)
(* ===================================================================== *)

Module Index.

Definition default_POLYGON_RPCS : list string :=
  [ "https://polygon-mainnet.g.alchemy.com/v2/C3-3l0i9jKmV2y_07pPCd";
    "https://polygon-mainnet.infura.io/v3/18f4f2e1325b4831aa19e725550061f6";
    "https://polygon-mainnet.infura.io/v3/62f1d3e20462487898ff7733ecdda2f4";
    "https://polygon-mainnet.core.chainstack.com/c563a3c2726932e669d1cb5f72dfa75a";
    "https://polygon-mainnet.core.chainstack.com/e0149669ba321c1de3cd1d322d1e184d";
    "https://polygon-mainnet.core.chainstack.com/c985c973d8bb05b487cdaa92c949a595";
    "https://polygon-mainnet.public.blastapi.io" ].

(** [POLYGON_RPCS] of [rpcConfig.js] for a setting of the environment
    ([None] when it is not set, an empty setting being falsy as well);
    [None] as a result is the exception "POLYGON_RPCS is empty" that stops
    the module. *)
Definition POLYGON_RPCS (setting : option string) : option (list string) :=
  let list :=
    if truthy setting then commaList (default EmptyString setting)
    else default_POLYGON_RPCS in
  if (List.length list =? 0)%nat then None else Some list.

(** What a start-up does that can be seen from outside: a [getBlockNumber]
    request to an endpoint, a pause of so many milliseconds. *)
Inductive Event : Type :=
| Probe (url : string)
| Sleep (ms : Z).

(** The network: whether the request sent to [url] after [n] earlier events
    is answered (with a block number) or fails. *)
Record Net : Type := { getBlockNumber : string -> nat -> option Z }.

Section Startup.

Context (net : Net).

(** The loop of [probeRpc] from its [i]-th turn on, [todo] turns being left;
    the events so far are threaded through, oldest first. *)
Fixpoint probe_loop (url : string) (attempts : nat) (todo : nat) (i : nat)
    (t : list Event) : bool * list Event :=
  match todo with
  | O => (false, t)
  | S todo' =>
      match getBlockNumber net url (List.length t) with
      | Some _ => (true, (t ++ [Probe url])%list)
      | None =>
          let t1 := (t ++ [Probe url])%list in
          let t2 := if (i <? attempts)%nat
                    then (t1 ++ [Sleep (400 * Z.of_nat i)])%list else t1 in
          probe_loop url attempts todo' (S i) t2
      end
  end.

Definition probeRpc (url : string) (attempts : nat) (t : list Event)
  : bool * list Event :=
  probe_loop url attempts attempts 1 t.

(** [None] is the exception "No Polygon RPC endpoint reachable from fallback
    list." *)
Fixpoint pickWorkingRpc (urls : list string) (t : list Event)
  : option string * list Event :=
  match urls with
  | [] => (None, t)
  | url :: rest =>
      let (ok, t1) := probeRpc url 3 t in
      if ok then (Some url, t1) else pickWorkingRpc rest t1
  end.

End Startup.

End Index.

(* ===================================================================== *)
(** ** The router validator ([validate-configs.js]) *)
(* ===================================================================== *)

Module ValidateConfigs.

(** A value of [routers.json]: a string or anything else. *)
Inductive JsValue : Type :=
| VString (s : string)
| VOther.

(** What [JSON.parse] makes of the file: [null], a number or a boolean, a
    string, or an object or array, given by its own properties in the order
    of [Object.entries] (an array has its indices as keys). *)
Inductive Routers : Type :=
| RNull
| RScalar
| RString (s : string)
| RProps (props : list (string * JsValue)).

Inductive RoutersFile : Type :=
| Missing
| Garbled
| Holds (r : Routers).

(** The mutable state of the module: the position in time (one tick for
    each request, rotation, alert or write), the module variable [provider],
    the rotations asked for, the pauses taken (milliseconds, oldest first),
    the set [alertedKeys], the alerts handed to [sendTelegramAlert] (oldest
    first, each with its key and whether it was delivered), [routers.json]
    and the number of times a write of it was tried. *)
Record State : Type := {
  ticks        : nat;
  provider     : nat;
  rotations    : nat;
  pauses       : list Z;
  alertedKeys  : gset string;
  alerts       : list (string * bool);
  routers_json : RoutersFile;
  writes       : nat
}.

(** The surroundings. [dataprovider.js] and [telegramalert.js] are not among
    the sources and nothing is assumed of them: [rotateProvider] returns an
    endpoint or throws ([None]), [sendTelegramAlert] succeeds or fails.
    [factory] and [getCode] are the answers of the chain to a request sent
    through an endpoint at some tick ([None] for a failed call);
    [getAddress] is [ethers.getAddress], [None] when it throws;
    [writeFileSync] tells whether the write at some tick succeeds. *)
Record Chain : Type := {
  rotateProvider    : nat -> nat -> option nat;
  sendTelegramAlert : nat -> bool;
  factory           : string -> nat -> nat -> option string;
  getCode           : string -> nat -> nat -> option string;
  getAddress        : JsValue -> option string;
  writeFileSync     : nat -> bool
}.

Definition tick (s : State) : State :=
  {| ticks := S (ticks s); provider := provider s; rotations := rotations s;
     pauses := pauses s; alertedKeys := alertedKeys s; alerts := alerts s;
     routers_json := routers_json s; writes := writes s |}.

Definition set_provider (p : nat) (s : State) : State :=
  {| ticks := ticks s; provider := p; rotations := rotations s;
     pauses := pauses s; alertedKeys := alertedKeys s; alerts := alerts s;
     routers_json := routers_json s; writes := writes s |}.

Definition count_rotation (s : State) : State :=
  {| ticks := ticks s; provider := provider s; rotations := S (rotations s);
     pauses := pauses s; alertedKeys := alertedKeys s; alerts := alerts s;
     routers_json := routers_json s; writes := writes s |}.

Definition pause (ms : Z) (s : State) : State :=
  {| ticks := ticks s; provider := provider s; rotations := rotations s;
     pauses := pauses s ++ [ms]; alertedKeys := alertedKeys s; alerts := alerts s;
     routers_json := routers_json s; writes := writes s |}.

Definition add_alertedKey (key : string) (s : State) : State :=
  {| ticks := ticks s; provider := provider s; rotations := rotations s;
     pauses := pauses s; alertedKeys := {[ key ]} ∪ alertedKeys s;
     alerts := alerts s; routers_json := routers_json s; writes := writes s |}.

Definition log_alert (key : string) (delivered : bool) (s : State) : State :=
  {| ticks := ticks s; provider := provider s; rotations := rotations s;
     pauses := pauses s; alertedKeys := alertedKeys s;
     alerts := alerts s ++ [(key, delivered)]; routers_json := routers_json s;
     writes := writes s |}.

Definition count_write (s : State) : State :=
  {| ticks := ticks s; provider := provider s; rotations := rotations s;
     pauses := pauses s; alertedKeys := alertedKeys s; alerts := alerts s;
     routers_json := routers_json s; writes := S (writes s) |}.

Definition set_routers_json (f : RoutersFile) (s : State) : State :=
  {| ticks := ticks s; provider := provider s; rotations := rotations s;
     pauses := pauses s; alertedKeys := alertedKeys s; alerts := alerts s;
     routers_json := f; writes := writes s |}.

(** State and exceptions, as for the guards. *)
Definition V (A : Type) : Type := State -> result A * State.

Definition ret {A} (a : A) : V A := fun s => (Ok a, s).

Definition bind {A B} (m : V A) (k : A -> V B) : V B :=
  fun s =>
    match m s with
    | (Ok a, s') => k a s'
    | (Throw e, s') => (Throw e, s')
    end.

Definition catch_ {A} (m : V A) (h : exn -> V A) : V A :=
  fun s =>
    match m s with
    | (Ok a, s') => (Ok a, s')
    | (Throw e, s') => h e s'
    end.

Definition lift {A} (r : result A) : V A := fun s => (r, s).

Declare Scope validator_scope.
Notation "x <- c1 ;; c2" := (bind c1 (fun x => c2))
  (at level 62, c1 at next level, right associativity) : validator_scope.
Local Open Scope validator_scope.

(** [/^0x[0-9a-fA-F]{40}$/] *)
Definition isHexDigit (c : ascii) : bool :=
  let n := nat_of_ascii c in
  ((48 <=? n) && (n <=? 57) || (65 <=? n) && (n <=? 70)
   || (97 <=? n) && (n <=? 102))%nat.

Definition isAddr (a : string) : bool :=
  match a with
  | String "0" (String "x" digits) =>
      (String.length digits =? 40)%nat
      && forallb isHexDigit (list_ascii_of_string digits)
  | _ => false
  end.

Section Validator.

Context (chain : Chain).

(** [readJson("./routers.json")]: [{}] when the file is missing or does not
    parse. *)
Definition readJson : V Routers :=
  fun s =>
    (Ok (match routers_json s with Holds r => r | _ => RProps [] end), s).

(** [writeJson("./routers.json", data)]: a failed write is logged only. *)
Definition writeJson (data : Routers) : V unit :=
  fun s =>
    let s1 := count_write (tick s) in
    (Ok tt, if writeFileSync chain (ticks s)
            then set_routers_json (Holds data) s1 else s1).

(** [try { provider = rotateProvider(...) } catch {}] *)
Definition rotate (s : State) : State :=
  let s1 := count_rotation (tick s) in
  match rotateProvider chain (provider s) (ticks s) with
  | Some p => set_provider p s1
  | None => s1
  end.

(** The loop of [safeCall] from its turn [i] on, [todo] turns being left. *)
Fixpoint safeCall_loop {A} (fn : V A) (retries : nat) (delayMs : Z)
    (todo : nat) (i : nat) : V (option A) :=
  match todo with
  | O => ret None
  | S todo' =>
      fun s =>
        match fn s with
        | (Ok a, s1) => (Ok (Some a), s1)
        | (Throw _, s1) =>
            let s2 := rotate s1 in
            let s3 := if Z.of_nat i <? Z.of_nat retries - 1
                      then pause delayMs s2 else s2 in
            safeCall_loop fn retries delayMs todo' (S i) s3
        end
  end.

(** [null] is [None]. *)
Definition safeCall {A} (fn : V A) (retries : nat) (delayMs : Z) : V (option A) :=
  safeCall_loop fn retries delayMs retries 0.

(** The text of the message is not modelled: the key stands for the alert.
    A failed [sendTelegramAlert] is logged only. *)
Definition alertOnce (key : string) : V unit :=
  fun s =>
    if bool_decide (key ∈ alertedKeys s) then (Ok tt, s)
    else
      let s1 := add_alertedKey key s in
      (Ok tt, log_alert key (sendTelegramAlert chain (ticks s1)) (tick s1)).

(** [new Contract(addr, abi, provider).factory()] with the [provider] of the
    moment. *)
Definition factoryCall (addr : string) : V string :=
  fun s =>
    (match factory chain addr (provider s) (ticks s) with
     | Some a => Ok a
     | None => Throw RemoteError
     end, tick s).

(** [provider.getCode(addr)] *)
Definition getCodeCall (addr : string) : V string :=
  fun s =>
    (match getCode chain addr (provider s) (ticks s) with
     | Some c => Ok c
     | None => Throw RemoteError
     end, tick s).

Inductive Reason : Type :=
| bad_address
| v2
| no_factory_method
| no_code_or_call_failed.

Record Validation : Type := { ok : bool; reason : Reason }.

Definition validateRouter (addr : string) : V Validation :=
  if negb (isAddr addr) then ret {| ok := false; reason := bad_address |}
  else
    factory <- safeCall (factoryCall addr) 3 1000 ;;
    if truthy factory && isAddr (default EmptyString factory)
    then ret {| ok := true; reason := v2 |}
    else
      code <- safeCall (getCodeCall addr) 3 1000 ;;
      if truthy code && negb (String.eqb (default EmptyString code) "0x")
      then ret {| ok := true; reason := no_factory_method |}
      else ret {| ok := false; reason := no_code_or_call_failed |}.

Definition autoCorrectRouter (addr : string) : V (option string) :=
  if negb (isAddr addr) then ret None
  else
    factory <- safeCall (factoryCall addr) 3 1000 ;;
    if truthy factory && isAddr (default EmptyString factory)
    then
      check <- validateRouter addr ;;
      if ok check then ret (Some addr) else ret None
    else ret None.

(** [Object.entries(routers)]: a [TypeError] on [null], nothing for a number
    or a boolean, the characters of a string under their indices. *)
Definition Object_entries (routers : Routers) : result (list (string * JsValue)) :=
  match routers with
  | RNull => Throw TypeError
  | RScalar => Ok []
  | RString s =>
      Ok (imap (fun i c => (pretty i, VString (String c EmptyString)))
               (list_ascii_of_string s))
  | RProps props => Ok props
  end.

(** [routers[name] = value] in a module (strict mode): the property is set,
    or added when the object has none of that name; a [TypeError] on a
    primitive. *)
Definition assign (routers : Routers) (name value : string) : result Routers :=
  match routers with
  | RProps props =>
      if existsb (fun e => String.eqb (fst e) name) props
      then Ok (RProps (List.map (fun e => if String.eqb (fst e) name
                                          then (fst e, VString value) else e)
                                props))
      else Ok (RProps (props ++ [(name, VString value)]))
  | _ => Throw TypeError
  end.

(** One turn of the loop of [runOnce] on the entry [name, addr]; [routers]
    and [changed] are threaded through. *)
Definition routerTurn (name : string) (addr : JsValue) (acc : Routers * bool)
  : V (Routers * bool) :=
  let (routers, changed) := acc in
  match getAddress chain addr with
  | None =>
      routers <- lift (assign routers name ZeroAddress) ;;
      _ <- alertOnce ("router-invalid:" ++ name) ;;
      ret (routers, true)
  | Some checksummedAddr =>
      check <- validateRouter checksummedAddr ;;
      if negb (ok check) then
        corrected <- autoCorrectRouter checksummedAddr ;;
        routers <-
          (if truthy corrected then
             routers <- lift (assign routers name (default EmptyString corrected)) ;;
             _ <- alertOnce ("router-corrected:" ++ name) ;;
             ret routers
           else
             routers <- lift (assign routers name ZeroAddress) ;;
             _ <- alertOnce ("router:" ++ name) ;;
             ret routers) ;;
        ret (routers, true)
      else
        routers <- lift (assign routers name checksummedAddr) ;;
        ret (routers, changed)
  end.

Fixpoint routerLoop (entries : list (string * JsValue)) (acc : Routers * bool)
  : V (Routers * bool) :=
  match entries with
  | [] => ret acc
  | (name, addr) :: rest =>
      acc <- routerTurn name addr acc ;;
      routerLoop rest acc
  end.

Definition runOnce : V unit :=
  routers <- readJson ;;
  entries <- lift (Object_entries routers) ;;
  acc <- routerLoop entries (routers, false) ;;
  if snd acc then writeJson (fst acc) else ret tt.

(** The first [rounds] turns of the endless loop of [mainLoop]. *)
Fixpoint mainLoop (intervalMs : Z) (rounds : nat) : State -> State :=
  match rounds with
  | O => fun s => s
  | S rounds' =>
      fun s =>
        let s1 := snd (catch_ runOnce (fun _ => ret tt) s) in
        mainLoop intervalMs rounds' (pause intervalMs s1)
  end.

End Validator.

End ValidateConfigs.

(* ===================================================================== *)
(** ** Vocabulary of the statements *)
(* ===================================================================== *)

(** An entry is inside the window when [now - timestamp < MEV_LOOKBACK_MS],
    an absent timestamp counting as 0. *)
Definition in_window (cfg : Config) (now : Z) (e : MevEntry) : bool :=
  now - default 0 (timestamp e) <? MEV_LOOKBACK_MS cfg.

Definition is_estimate (c : Call) : bool :=
  match c with CallEstimateGas _ => true | _ => false end.

(** The gas-estimation calls issued so far. *)
Definition estimate_calls (w : World) : list Call :=
  List.filter is_estimate (calls w).







(** [clamp(x, lo, hi)] *)
Definition clamp (lo hi x : Z) : Z := Z.max lo (Z.min hi x).

(** The integral slippage percentage the reserve cap is stated with: the
    integer part of [slippagePercent] (1 when it is absent), clamped to
    [0, 99]. *)
Definition slippage_pct (slippagePercent : option Q) : Z :=
  clamp 0 99 (Qfloor (default (inject_Z 1) slippagePercent)).


(* --------------------------------------------------------------------- *)
(** *** The pipeline as an ordered list of required guards *)

(** What a required guard reports: it was skipped, or it ran and returned
    the verdict [d]. *)
Inductive Report : Type :=
| Skipped
| Ran (d : Details).

(** Whether a guard's verdict lets the pipeline go on. *)
Definition passes (d : Details) : bool :=
  match d with
  | DCooldown cd => cd_ok cd
  | DMev mev => negb (risk mev)
  | DSlippage slip => slip_ok slip
  | DProfit pt => pt_ok pt
  | DGas gas => gas_ok gas
  | DWallet wb => wb_ok wb
  | DFlash fl => fl_ok fl
  | DAll _ _ _ _ _ _ => true
  end.

(** A required guard: its name in the trace, the reason the pipeline gives
    when it fails, and its evaluation. *)
Record Guard : Type := {
  g_name   : string;
  g_reason : string;
  g_run    : M Report
}.

Definition ran {A} (wrap : A -> Details) (m : M A) : M Report :=
  v <- m ;; ret (Ran (wrap v)).

(** The seven required guards, in the order of the specification. *)
Definition requiredGuards (env : Env) (cfg : Config) (p : Params) : list Guard :=
  [ {| g_name := "cooldown"; g_reason := "cooldown";
       g_run := ran DCooldown (enforceCooldown env cfg (routeKey p)) |};
    {| g_name := "mev"; g_reason := "mevRisk";
       g_run := ran DMev (isMEVRisk env cfg) |};
    {| g_name := "slippage"; g_reason := "slippage";
       g_run := ran DSlippage
                  (lift (validateSlippage cfg (expectedOut p) (minOut p))) |};
    {| g_name := "profit"; g_reason := "profitBelowThreshold";
       g_run := ran DProfit
                  (if isFiniteNumber (profitUsd p) && isFiniteNumber (notionalUsd p)
                   then ret (meetsProfitThresholdUSD cfg
                               (default 0%float (profitUsd p))
                               (default 0%float (notionalUsd p)))
                   else
                     provider <- getReadProvider ;;
                     meetsProfitThresholdUSD_Chainlink env cfg provider
                       (profitToken p) (profitAmountWei p)
                       (notionalToken p) (notionalAmountWei p) (feedMap p)) |};
    {| g_name := "gas"; g_reason := "gasBad";
       g_run := ran DGas (assessGas env cfg (txRequest p)) |};
    {| g_name := "walletBalance"; g_reason := "insufficientBalance";
       g_run := match neededBalance p with
                | Some nb =>
                    if truthy (nb_token nb)
                    then ran DWallet
                           (hasWalletBalance env (wallet p) (nb_token nb)
                              (nb_amountWei nb))
                    else ret Skipped
                | None => ret Skipped
                end |};
    {| g_name := "flashLoan"; g_reason := "flashNotAvailable";
       g_run := match flashCandidates p with
                | [] => ret Skipped
                | cs => ran DFlash (isFlashLoanAvailable env cfg cs)
                end |} ].

(** A guard let the pipeline go on: it was skipped, or it ran and its
    verdict passes. *)
Definition let_through (g : Guard) : Prop :=
  exists wa wb rep,
    g_run g wa = (Ok rep, wb) /\
    match rep with Skipped => True | Ran d => passes d = true end.


(** The names of the three best-effort steps that follow. *)
Definition bestEffortSteps : list string := ["poolState"; "fallback"; "lock"].

(** The outcome of the required guards: the verdict of the first one that
    failed, or the trace after all of them passed. *)
Inductive Required : Type :=
| Rejected (v : Verdict)
| AllPassed (tr : Trace).

(** Runs the guards in order; each is timestamped into the trace once it
    has returned; the first that fails ends the run with its reason, its
    verdict as details and the trace so far. *)
Fixpoint runRequired (env : Env) (t0 : Z) (gs : list Guard) (tr : Trace) : M Required :=
  match gs with
  | [] => ret (AllPassed tr)
  | g :: rest =>
      r <- g_run g ;;
      tr <- step env t0 (g_name g) tr ;;
      match r with
      | Skipped => runRequired env t0 rest tr
      | Ran d =>
          if passes d then runRequired env t0 rest tr
          else ret (Rejected (rejected (g_reason g) d tr))
      end
  end.

(** A computation that leaves the cooldown map as it found it, whatever it
    returns. *)
Definition keeps_cooldowns {A} (m : M A) : Prop :=
  forall w, lastActionAt (snd (m w)) = lastActionAt w.

(** The balance of [token] held by [holder] is above the minimum of the
    fallback selection: it is read, it is not zero and it exceeds [minAmt]. *)
Definition funded (bal : string -> option Z) (minAmt : Z) (token : string) : Prop :=
  exists b, bal token = Some b /\ b <> 0 /\ minAmt < b.

(** A flash-loan candidate has the liquidity asked for: its balance is read,
    the amount needed converts to a bigint and does not exceed the balance. *)
Definition liquid (bal : string -> string -> option Z) (c : FlashCandidate) : bool :=
  match bal (fc_token c) (fc_addr c), BigInt (fc_needed c) with
  | Some b, Ok n => n <=? b
  | _, _ => false
  end.

(** One of the reads of a V2 pair fails at endpoint [p]. *)
Definition v2_read_fails (env : Env) (p : nat) (pair : string) : Prop :=
  rpc_token0 env p pair = None \/ rpc_token1 env p pair = None \/
  rpc_getReserves env p pair = None.

(** One of the reads of a V3 pool fails at endpoint [p]. *)
Definition v3_read_fails (env : Env) (p : nat) (pool : string) : Prop :=
  rpc_slot0 env p pool = None \/ rpc_liquidity env p pool = None \/
  rpc_token0 env p pool = None \/ rpc_token1 env p pool = None.

(* --------------------------------------------------------------------- *)
(** *** Sample surroundings for the examples *)

Definition gwei : Z := 10 ^ 9.

(** Two endpoints that answer every fee, gas and balance query; the other
    reads fail. The clock advances by one millisecond per reading. *)
Definition sample_env : Env := {|
  clock               := fun n => 1700000000000 + Z.of_nat n;
  next_endpoint       := fun p => ((p + 1) mod 2)%nat;
  rpc_getFeeData      := fun _ => Some {| fd_gasPrice := Some (30 * gwei);
                                          fd_maxFeePerGas := Some (40 * gwei);
                                          fd_maxPriorityFeePerGas := Some (2 * gwei) |};
  rpc_estimateGas     := fun _ _ => Some 210000;
  rpc_getBalance      := fun _ _ => Some 5;
  rpc_balanceOf       := fun _ _ _ => Some 1000;
  rpc_decimals        := fun _ _ => None;
  rpc_latestRoundData := fun _ _ => None;
  rpc_token0          := fun _ _ => None;
  rpc_token1          := fun _ _ => None;
  rpc_getReserves     := fun _ _ => None;
  rpc_slot0           := fun _ _ => None;
  rpc_liquidity       := fun _ _ => None;
  formatUnits         := fun _ _ => None
|}.

(** The sample endpoints with other fee data. *)
Definition with_fee_data (fd : option FeeData) (e : Env) : Env := {|
  clock               := clock e;
  next_endpoint       := next_endpoint e;
  rpc_getFeeData      := fun _ => fd;
  rpc_estimateGas     := rpc_estimateGas e;
  rpc_getBalance      := rpc_getBalance e;
  rpc_balanceOf       := rpc_balanceOf e;
  rpc_decimals        := rpc_decimals e;
  rpc_latestRoundData := rpc_latestRoundData e;
  rpc_token0          := rpc_token0 e;
  rpc_token1          := rpc_token1 e;
  rpc_getReserves     := rpc_getReserves e;
  rpc_slot0           := rpc_slot0 e;
  rpc_liquidity       := rpc_liquidity e;
  formatUnits         := formatUnits e
|}.

(** A process that has just started: nothing called, no cooldown recorded,
    no MEV queue file. *)
Definition fresh_world : World := {|
  ticks := 0; endpoint := 0; rotations := []; calls := [];
  lastActionAt := ∅; mev_file := FileAbsent; mev_writable := true
|}.

(** A trade with a slippage of 100 bps and a direct-USD profit of 2%. *)
Definition sample_params : Params := {|
  routeKey          := "route-1";
  expectedOut       := JBig 1000;
  minOut            := JBig 990;
  txRequest         := None;
  profitUsd         := Some 20%float;
  notionalUsd       := Some 1000%float;
  profitToken       := None;
  profitAmountWei   := None;
  notionalToken     := None;
  notionalAmountWei := None;
  feedMap           := ∅;
  wallet            := "0xwallet";
  v2PairAddr        := None;
  v3PoolAddr        := None;
  fallbackTokens    := [];
  neededBalance     := None;
  flashCandidates   := []
|}.

Definition with_amounts (e m : jsnumeric) (p : Params) : Params :=
  {| routeKey := routeKey p; expectedOut := e; minOut := m;
     txRequest := txRequest p; profitUsd := profitUsd p;
     notionalUsd := notionalUsd p; profitToken := profitToken p;
     profitAmountWei := profitAmountWei p; notionalToken := notionalToken p;
     notionalAmountWei := notionalAmountWei p; feedMap := feedMap p;
     wallet := wallet p; v2PairAddr := v2PairAddr p; v3PoolAddr := v3PoolAddr p;
     fallbackTokens := fallbackTokens p; neededBalance := neededBalance p;
     flashCandidates := flashCandidates p |}.

Definition with_neededBalance (nb : option NeededBalance) (p : Params) : Params :=
  {| routeKey := routeKey p; expectedOut := expectedOut p; minOut := minOut p;
     txRequest := txRequest p; profitUsd := profitUsd p;
     notionalUsd := notionalUsd p; profitToken := profitToken p;
     profitAmountWei := profitAmountWei p; notionalToken := notionalToken p;
     notionalAmountWei := notionalAmountWei p; feedMap := feedMap p;
     wallet := wallet p; v2PairAddr := v2PairAddr p; v3PoolAddr := v3PoolAddr p;
     fallbackTokens := fallbackTokens p; neededBalance := nb;
     flashCandidates := flashCandidates p |}.

(** The sample trade with a native-asset requirement, asked with the zero
    address as token. *)
Definition native_requirement (amount : Z) : Params :=
  with_neededBalance
    (Some {| nb_token := Some ZeroAddress; nb_amountWei := BigIntVal amount |})
    sample_params.

(** The sample endpoints with a V2 pair [0xpair] of reserves (1000000, 500)
    and a V3 pool [0xpool] of liquidity 40000. *)
Definition pool_env : Env := {|
  clock               := clock sample_env;
  next_endpoint       := next_endpoint sample_env;
  rpc_getFeeData      := rpc_getFeeData sample_env;
  rpc_estimateGas     := rpc_estimateGas sample_env;
  rpc_getBalance      := rpc_getBalance sample_env;
  rpc_balanceOf       := rpc_balanceOf sample_env;
  rpc_decimals        := rpc_decimals sample_env;
  rpc_latestRoundData := rpc_latestRoundData sample_env;
  rpc_token0          := fun _ _ => Some "0xAAa1";
  rpc_token1          := fun _ _ => Some "0xBBb2";
  rpc_getReserves     := fun _ a => if String.eqb a "0xpair"
                                    then Some (1000000%N, 500%N, 1699999999)
                                    else None;
  rpc_slot0           := fun _ a => if String.eqb a "0xpool"
                                    then Some (Some (2 ^ 96)) else None;
  rpc_liquidity       := fun _ a => if String.eqb a "0xpool"
                                    then Some 40000%N else None;
  formatUnits         := formatUnits sample_env
|}.

Definition sample_reserve_args (kind : string) (tokenIn : string)
    (desired : BigIntArg) (slippage : option Q) : ReserveArgs := {|
  rt_provider     := 0;
  poolType        := kind;
  poolAddress     := "0xpool";
  pairAddress     := "0xpair";
  tokenIn         := Some tokenIn;
  desiredAmount   := desired;
  slippagePercent := slippage
|}.

(** The default settings with the Aave source switched on. *)
Definition lending_config : Config := {|
  PROFIT_THRESHOLD_BPS    := PROFIT_THRESHOLD_BPS default_config;
  PROFIT_THRESHOLD_USD    := PROFIT_THRESHOLD_USD default_config;
  COOLDOWN_MS             := COOLDOWN_MS default_config;
  MAX_SLIPPAGE_BPS        := MAX_SLIPPAGE_BPS default_config;
  HIGH_GAS_WEI            := HIGH_GAS_WEI default_config;
  GAS_LIMIT_MAX           := GAS_LIMIT_MAX default_config;
  MEV_LOOKBACK_MS         := MEV_LOOKBACK_MS default_config;
  CHAINLINK_STALE_SECONDS := CHAINLINK_STALE_SECONDS default_config;
  AAVE_LOAN               := true;
  BAL_LOAN                := false;
  FLASH_FALLBACK_TOKENS   := FLASH_FALLBACK_TOKENS default_config
|}.

(** Two candidates: an Aave one asking for more than the pool holds, and an
    Aave one asking for less; and a Balancer one. *)
Definition sample_candidates : list FlashCandidate :=
  [ {| fc_type := "aave"; fc_token := "0xtoken"; fc_addr := "0xaavepool";
       fc_needed := BigIntVal 5000 |};
    {| fc_type := "balancer"; fc_token := "0xtoken"; fc_addr := "0xvault";
       fc_needed := BigIntVal 10 |};
    {| fc_type := "aave"; fc_token := "0xtoken"; fc_addr := "0xaavepool";
       fc_needed := Convertible 800 |} ].

(* ===================================================================== *)
(** ** Vocabulary and samples for the settings, the start-up and the
    router validator *)
(* ===================================================================== *)

(* --------------------------------------------------------------------- *)
(** *** Entries of a comma-separated setting *)

(** The character occurs in the string. *)
Fixpoint mentions (c : ascii) (s : string) : bool :=
  match s with
  | EmptyString => false
  | String d r => Ascii.eqb d c || mentions c r
  end.

(** An entry as the parsed list holds them: not empty, without a comma, and
    with nothing left to trim at either end. *)
Definition clean (e : string) : Prop :=
  e <> EmptyString /\ mentions "," e = false /\ String_trim e = e.

(* --------------------------------------------------------------------- *)
(** *** Traces of the start-up *)

(** [n] requests to [url] in a row, the [i]-th failed one followed by a pause
    of [400 * i] ms, counting from [i]; nothing follows the last request. *)
Fixpoint attempts_trace (url : string) (i : nat) (n : nat) : list Index.Event :=
  match n with
  | O => []
  | S O => [Index.Probe url]
  | S n' => Index.Probe url :: Index.Sleep (400 * Z.of_nat i) :: attempts_trace url (S i) n'
  end.

(** The milliseconds a trace spends in pauses. *)
Definition slept (t : list Index.Event) : Z :=
  fold_right (fun e acc => match e with Index.Sleep ms => ms + acc | _ => acc end) 0 t.

(** The endpoints a trace sends requests to, in order. *)
Definition probed (t : list Index.Event) : list string :=
  flat_map (fun e => match e with Index.Probe u => [u] | _ => [] end) t.

(* --------------------------------------------------------------------- *)
(** *** The books of the router validator *)

(** A computation that neither rotates the endpoint nor pauses. *)
Definition quiet {A} (fn : ValidateConfigs.V A) : Prop :=
  forall s,
    ValidateConfigs.rotations (snd (fn s)) = ValidateConfigs.rotations s /\
    ValidateConfigs.pauses (snd (fn s)) = ValidateConfigs.pauses s.

(** Two states with the same alert throttle, alert log and router file. *)
Definition same_books (s s' : ValidateConfigs.State) : Prop :=
  ValidateConfigs.alertedKeys s' = ValidateConfigs.alertedKeys s /\
  ValidateConfigs.alerts s' = ValidateConfigs.alerts s /\
  ValidateConfigs.routers_json s' = ValidateConfigs.routers_json s /\
  ValidateConfigs.writes s' = ValidateConfigs.writes s.

(** Two states with the same router file. *)
Definition same_file (s s' : ValidateConfigs.State) : Prop :=
  ValidateConfigs.routers_json s' = ValidateConfigs.routers_json s /\
  ValidateConfigs.writes s' = ValidateConfigs.writes s.

(** No key was alerted twice, and every alerted key is in [alertedKeys]. *)
Definition throttled (s : ValidateConfigs.State) : Prop :=
  NoDup (List.map fst (ValidateConfigs.alerts s)) /\
  forall key, In key (List.map fst (ValidateConfigs.alerts s)) ->
              key ∈ ValidateConfigs.alertedKeys s.


(** A router that answers [factory()] with an address at every endpoint and
    at any time. *)
Definition answers_factory (chain : ValidateConfigs.Chain) (addr : string) : Prop :=
  forall p t, exists f,
    ValidateConfigs.factory chain addr p t = Some f /\
    ValidateConfigs.isAddr f = true.

(** Samples: a chain on which every call succeeds, a start state whose file
    holds one router written in lower case. *)
Definition sample_router : string := "0xa5e0829caced8ffdd4de3c43696c57f7d7a678ff".
Definition sample_router_checksummed : string :=
  "0xa5E0829CaCEd8fFDD4De3c43696c57F7D7A678ff".
Definition sample_factory : string := "0x5757371414417b8C6CAad45bAeF941aBc7d3Ab32".

Definition sample_chain : ValidateConfigs.Chain := {|
  ValidateConfigs.rotateProvider := fun p _ => Some (S p);
  ValidateConfigs.sendTelegramAlert := fun _ => true;
  ValidateConfigs.factory := fun _ _ _ => Some sample_factory;
  ValidateConfigs.getCode := fun _ _ _ => Some "0x6080";
  ValidateConfigs.getAddress := fun v =>
    match v with
    | ValidateConfigs.VString s =>
        if String.eqb s sample_router then Some sample_router_checksummed else None
    | ValidateConfigs.VOther => None
    end;
  ValidateConfigs.writeFileSync := fun _ => true
|}.

Definition sample_routers : list (string * ValidateConfigs.JsValue) :=
  [("quickswap", ValidateConfigs.VString sample_router);
   ("broken", ValidateConfigs.VString "not an address")].

Definition validator_start : ValidateConfigs.State := {|
  ValidateConfigs.ticks := 0; ValidateConfigs.provider := 0;
  ValidateConfigs.rotations := 0; ValidateConfigs.pauses := [];
  ValidateConfigs.alertedKeys := ∅; ValidateConfigs.alerts := [];
  ValidateConfigs.routers_json := ValidateConfigs.Holds (ValidateConfigs.RProps sample_routers);
  ValidateConfigs.writes := 0
|}.

(** A step that leaves the router file alone and keeps the alerts
    throttled. *)
Definition orderly (s s' : ValidateConfigs.State) : Prop :=
  same_file s s' /\ (throttled s -> throttled s').


(** An entry whose address has a checksummed form, the router at that
    address answering [factory()]. *)
Definition healthy (chain : ValidateConfigs.Chain)
    (e : string * ValidateConfigs.JsValue) : Prop :=
  exists checksummed,
    ValidateConfigs.getAddress chain (snd e) = Some checksummed /\
    ValidateConfigs.isAddr checksummed = true /\
    answers_factory chain checksummed.

(* ===================================================================== *)
(** ** Facts about doubles used below *)
(* ===================================================================== *)

Lemma ltb_zero_not_leb (x : float) :
  (0 <? x)%float = true -> (x <=? 0)%float = false.
Proof.
  rewrite ltb_spec, leb_spec.
  replace (Prim2SF 0%float) with (S754_zero false) by reflexivity.
  destruct (Prim2SF x) as [s | s | | s m e]; try destruct s; cbv; congruence.
Qed.



(* ===================================================================== *)
(** ** Slippage guard *)
(* ===================================================================== *)

Lemma validateSlippage_bigint (cfg : Config) (e m : Z) :
  0 < e -> m <= e ->
  validateSlippage cfg (JBig e) (JBig m) =
  Ok {| slip_ok := (e - m) * 10000 ÷ e <=? MAX_SLIPPAGE_BPS cfg;
        slippageBps := (e - m) * 10000 ÷ e;
        maxSlippageBps := MAX_SLIPPAGE_BPS cfg;
        slip_reason := None |}.
Proof.
  intros He Hm. unfold validateSlippage; simpl.
  destruct (e <=? 0) eqn:E1; [apply Z.leb_le in E1; lia|].
  destruct (e <? m) eqn:E2; [apply Z.ltb_lt in E2; lia|].
  destruct (e =? 0) eqn:E3; [apply Z.eqb_eq in E3; lia|].
  reflexivity.
Qed.

(** Scenario A of the specification: the boundary passes. *)
Example slippage_scenario_A :
  validateSlippage default_config (JBig 1000) (JBig 990) =
  Ok {| slip_ok := true; slippageBps := 100; maxSlippageBps := 100;
        slip_reason := None |}.
Proof. reflexivity. Qed.

(** Scenario B of the specification: ten times the ceiling is refused. *)
Example slippage_scenario_B :
  validateSlippage default_config (JBig 1000) (JBig 900) =
  Ok {| slip_ok := false; slippageBps := 1000; maxSlippageBps := 100;
        slip_reason := None |}.
Proof. reflexivity. Qed.

(** C2. For bigint inputs with [expectedOut > 0] and
    [0 <= minOut <= expectedOut], [validateSlippage] returns
    [slippageBps = floor((expectedOut - minOut) * 10000 / expectedOut)] and
    [ok = true] exactly when [slippageBps <= MAX_SLIPPAGE_BPS] (the boundary
    passes); [expectedOut <= 0] fails with reason ['expectedOut<=0'] and
    [minOut > expectedOut] fails with reason ['minOut>expectedOut']. *)
Theorem validateSlippage_correct (cfg : Config) (expectedOut minOut : Z) :
  (0 < expectedOut -> 0 <= minOut <= expectedOut ->
   exists v,
     validateSlippage cfg (JBig expectedOut) (JBig minOut) = Ok v /\
     slippageBps v = (expectedOut - minOut) * 10000 / expectedOut /\
     0 <= slippageBps v <= 10000 /\
     (slip_ok v = true <-> slippageBps v <= MAX_SLIPPAGE_BPS cfg) /\
     (slippageBps v = MAX_SLIPPAGE_BPS cfg -> slip_ok v = true)) /\
  (expectedOut <= 0 ->
   exists v,
     validateSlippage cfg (JBig expectedOut) (JBig minOut) = Ok v /\
     slip_ok v = false /\ slip_reason v = Some "expectedOut<=0") /\
  (0 < expectedOut -> expectedOut < minOut ->
   exists v,
     validateSlippage cfg (JBig expectedOut) (JBig minOut) = Ok v /\
     slip_ok v = false /\ slip_reason v = Some "minOut>expectedOut").
Proof.
  repeat split.
  - intros He [Hm0 Hm].
    eexists. split; [apply validateSlippage_bigint; lia|]. simpl.
    assert (Hq : (expectedOut - minOut) * 10000 ÷ expectedOut
                 = (expectedOut - minOut) * 10000 / expectedOut)
      by (apply Z.quot_div_nonneg; lia).
    rewrite Hq.
    assert (Hlo : 0 <= (expectedOut - minOut) * 10000 / expectedOut)
      by (apply Z.div_pos; lia).
    assert (Hhi : (expectedOut - minOut) * 10000 / expectedOut <= 10000).
    { apply Z.div_le_upper_bound; [lia|]. nia. }
    repeat split; lia.
  - intros He. unfold validateSlippage; simpl.
    destruct (expectedOut <=? 0) eqn:E1; [|apply Z.leb_gt in E1; lia].
    eexists; repeat split.
  - intros He Hm. unfold validateSlippage; simpl.
    destruct (expectedOut <=? 0) eqn:E1; [apply Z.leb_le in E1; lia|].
    destruct (expectedOut <? minOut) eqn:E2; [|apply Z.ltb_ge in E2; lia].
    eexists; repeat split.
Qed.

(* ===================================================================== *)
(** ** Profit lock *)
(* ===================================================================== *)

(** With a profit of six cents the locked share is 5 cents and the rest is
    1 cent, and the two doubles do not add up to [0.06]. *)
Example lockProfit_six_cents :
  lockProfit 0.06 0.75 = {| locked := 0.05; leftover := 0.01 |} /\
  (0.05 + 0.01 =? 0.06)%float = false.
Proof. split; vm_compute; reflexivity. Qed.

(** C4, as stated, fails: for the finite positive profit [0.06] and the lock
    fraction [0.75], [locked + leftover] differs from
    [round(profitUsd * 100) / 100]. *)
Lemma lockProfit_sum_drifts :
  ~ (forall profitUsd : float,
        Number_isFinite profitUsd = true ->
        (0 <? profitUsd)%float = true ->
        (locked (lockProfit profitUsd 0.75) + leftover (lockProfit profitUsd 0.75)
         =? Math_round (profitUsd * 100) / 100)%float = true).
Proof.
  intros H.
  specialize (H 0.06%float eq_refl eq_refl).
  vm_compute in H. discriminate H.
Qed.

(** C4, amended. A non-finite or non-positive profit gives
    [{locked: 0, leftover: 0}]; for a finite positive profit and any lock
    fraction, with [cents = round(profitUsd * 100)], [locked] is
    [round(cents * lockPct) / 100] and [leftover] is
    [(cents - round(cents * lockPct)) / 100]: the split is made on the cent
    amounts and each is converted to dollars on its own. *)
Theorem lockProfit_split (profitUsd lockPct : float) :
  (Number_isFinite profitUsd = false \/ (profitUsd <=? 0)%float = true ->
   lockProfit profitUsd lockPct = {| locked := 0; leftover := 0 |}) /\
  (Number_isFinite profitUsd = true -> (0 <? profitUsd)%float = true ->
   locked (lockProfit profitUsd lockPct)
   = (Math_round (Math_round (profitUsd * 100) * lockPct) / 100)%float /\
   leftover (lockProfit profitUsd lockPct)
   = ((Math_round (profitUsd * 100)
       - Math_round (Math_round (profitUsd * 100) * lockPct)) / 100)%float).
Proof.
  split.
  - intros [H | H]; unfold lockProfit; rewrite H; simpl; [reflexivity|].
    rewrite orb_true_r. reflexivity.
  - intros Hf Hp. unfold lockProfit.
    rewrite Hf, (ltb_zero_not_leb _ Hp). simpl. split; reflexivity.
Qed.

(* ===================================================================== *)
(** ** Direct-USD profit threshold *)
(* ===================================================================== *)





(* ===================================================================== *)
(** ** Cooldown guard *)
(* ===================================================================== *)

(** C8. With [now] the clock reading of the call and [last] the timestamp
    stored for the key (0 when there is none), [enforceCooldown] returns
    [ok = false] exactly when [now - last < COOLDOWN_MS], then with
    [msRemaining = COOLDOWN_MS - (now - last)] and the map unchanged;
    otherwise it returns [ok = true] and stores [now] for the key. So a call
    that passes, followed by a call for the same key less than the window
    later, gives [ok = true] then [ok = false], with [msRemaining] the window
    less the time between the two readings (the whole window when the clock
    has not moved). *)
Theorem enforceCooldown_correct (env : Env) (cfg : Config) (key : string) (w : World) :
  let now := clock env (ticks w) in
  let last := default 0 (lastActionAt w !! key) in
  let window := COOLDOWN_MS cfg in
  exists v w',
    enforceCooldown env cfg key w = (Ok v, w') /\
    (cd_ok v = false <-> now - last < window) /\
    (now - last < window ->
     msRemaining v = Some (window - (now - last)) /\
     lastActionAt w' = lastActionAt w) /\
    (window <= now - last ->
     cd_ok v = true /\
     lastActionAt w' = <[key := now]> (lastActionAt w) /\
     let now2 := clock env (S (ticks w)) in
     now2 - now < window ->
     exists w'',
       enforceCooldown env cfg key w' =
       (Ok {| cd_ok := false; msRemaining := Some (window - (now2 - now)) |}, w'') /\
       lastActionAt w'' = lastActionAt w' /\
       (now2 = now -> window - (now2 - now) = window)).
Proof.
  intros now last window.
  unfold enforceCooldown, bind, Date_now, gets, modify, ret; simpl.
  fold now last window.
  destruct (now - last <? window) eqn:E.
  - apply Z.ltb_lt in E.
    eexists _, _. split; [reflexivity|]. simpl.
    repeat split; auto; lia.
  - apply Z.ltb_ge in E.
    eexists _, _. split; [reflexivity|]. simpl.
    split; [split; [discriminate | lia]|].
    split; [lia|].
    intros _. split; [reflexivity|]. split; [reflexivity|].
    cbv zeta. intros H2.
    rewrite lookup_insert_eq. simpl.
    set (now2 := clock env (S (ticks w))) in *.
    destruct (now2 - now <? window) eqn:E2; [|apply Z.ltb_ge in E2; lia].
    eexists. split; [reflexivity|]. simpl. split; [reflexivity|]. lia.
Qed.

(** A fresh key passes, and an immediate second call is refused for the
    whole window. *)
Example cooldown_twice :
  let r1 := enforceCooldown sample_env default_config "route-1" fresh_world in
  let r2 := enforceCooldown sample_env default_config "route-1" (snd r1) in
  fst r1 = Ok {| cd_ok := true; msRemaining := None |} /\
  fst r2 = Ok {| cd_ok := false; msRemaining := Some 2999 |}.
Proof. split; vm_compute; reflexivity. Qed.

(* ===================================================================== *)
(** ** MEV risk guard *)
(* ===================================================================== *)

Lemma scanQueue_acc (cfg : Config) (now : Z) (q : list MevEntry)
    (recent : bool) (keep : list MevEntry) :
  fold_left
    (fun (acc : bool * list MevEntry) e =>
       let ts := default 0 (timestamp e) in
       if now - ts <? MEV_LOOKBACK_MS cfg then (true, (snd acc ++ [e])%list) else acc)
    q (recent, keep)
  = (recent || existsb (in_window cfg now) q,
     (keep ++ List.filter (in_window cfg now) q)%list).
Proof.
  revert recent keep.
  induction q as [|e q IH]; intros recent keep; simpl.
  - rewrite orb_false_r, app_nil_r. reflexivity.
  - unfold in_window at 1 3. simpl.
    destruct (now - default 0 (timestamp e) <? MEV_LOOKBACK_MS cfg); rewrite IH; simpl.
    + rewrite orb_true_r, <- app_assoc. reflexivity.
    + reflexivity.
Qed.

Lemma scanQueue_filter (cfg : Config) (now : Z) (q : list MevEntry) :
  scanQueue cfg now q =
  (existsb (in_window cfg now) q, List.filter (in_window cfg now) q).
Proof. unfold scanQueue. rewrite scanQueue_acc. reflexivity. Qed.

(** Scenario C of the specification: one entry 5000 ms old is inside a
    window of 10000 ms; read again after the window has passed, it is pruned
    from the file and the risk is gone. *)
Example mev_scenario_C :
  let entry := {| timestamp := Some (1700000000000 - 5000); entry_rest := "tx" |} in
  let w := set_mev_file (FileContent (Parses (JsonArray [entry]))) fresh_world in
  let later := set_ticks 20000%nat w in
  fst (isMEVRisk sample_env default_config w) = Ok {| risk := true |} /\
  fst (isMEVRisk sample_env default_config later) = Ok {| risk := false |} /\
  mev_file (snd (isMEVRisk sample_env default_config later))
  = FileContent (Parses (JsonArray [])).
Proof. repeat split; vm_compute; reflexivity. Qed.

(** C7. [isMEVRisk] always returns a verdict. An absent file and parseable
    content that is not an array give [risk = false]; a failing read or
    parse gives [risk = true]. For an array, [risk = true] exactly when some
    entry has [now - timestamp < MEV_LOOKBACK_MS]; the entries kept are those
    inside the window, in order; when some entry was dropped the kept ones
    are written back, and a failing write leaves the file as it was without
    changing the verdict. *)
Theorem isMEVRisk_correct (env : Env) (cfg : Config) (w : World) :
  exists v w',
    isMEVRisk env cfg w = (Ok v, w') /\
    match mev_file w with
    | FileAbsent | FileContent (Parses JsonOther) => risk v = false /\ w' = w
    | FileUnreadable | FileContent Unparseable => risk v = true /\ w' = w
    | FileContent (Parses (JsonArray q)) =>
        let now := clock env (ticks w) in
        let keep := List.filter (in_window cfg now) q in
        (risk v = true <->
         exists e, In e q /\ now - default 0 (timestamp e) < MEV_LOOKBACK_MS cfg) /\
        (forall e, In e keep <->
                   In e q /\ now - default 0 (timestamp e) < MEV_LOOKBACK_MS cfg) /\
        mev_file w' =
          (if (List.length keep =? List.length q)%nat then mev_file w
           else if mev_writable w then FileContent (Parses (JsonArray keep))
                else mev_file w)
    end.
Proof.
  unfold isMEVRisk, catch_, bind, fs_existsSync, fs_readFileSync, gets, lift, ret.
  destruct (mev_file w) as [| | [|[|q]]] eqn:Ef; simpl; rewrite ?Ef; simpl.
  - eexists _, _. split; [reflexivity|]. split; reflexivity.
  - eexists _, _. split; [reflexivity|]. split; reflexivity.
  - eexists _, _. split; [reflexivity|]. split; reflexivity.
  - eexists _, _. split; [reflexivity|]. split; reflexivity.
  - rewrite scanQueue_filter.
    set (now := clock env (ticks w)).
    set (keep := List.filter (in_window cfg now) q).
    assert (Hrisk : existsb (in_window cfg now) q = true <->
                    exists e, In e q /\
                              now - default 0 (timestamp e) < MEV_LOOKBACK_MS cfg).
    { rewrite existsb_exists. unfold in_window.
      split; intros [e [H1 H2]]; exists e; split; auto; lia. }
    assert (Hkeep : forall e, In e keep <->
                    In e q /\ now - default 0 (timestamp e) < MEV_LOOKBACK_MS cfg).
    { intros e. unfold keep. rewrite filter_In. unfold in_window.
      split; intros [H1 H2]; split; auto; lia. }
    destruct (List.length keep =? List.length q)%nat eqn:El; simpl.
    + eexists _, _. split; [reflexivity|]. simpl.
      rewrite Ef. auto.
    + unfold fs_writeFileSync. simpl.
      destruct (mev_writable w) eqn:Ew; simpl;
        (eexists _, _; split; [reflexivity|]; simpl; rewrite ?Ef; auto).
Qed.

(* ===================================================================== *)
(** ** Gas guard *)
(* ===================================================================== *)

(** Unfolds the monadic plumbing of the read helpers. *)
Ltac run_reads :=
  cbv beta iota delta
    [catch_ bind ret throw lift gets modify remote readCall readCallWithProvider
       readFailover rotateProvider getReadProvider];
  simpl.




(** Scenario E of the specification: a fetched [maxFeePerGas] of 400 gwei is
    over the ceiling of 300 gwei, and no gas estimation is asked for. *)
Example gas_scenario_E :
  let env := with_fee_data
               (Some {| fd_gasPrice := Some (30 * gwei);
                        fd_maxFeePerGas := Some (400 * gwei);
                        fd_maxPriorityFeePerGas := Some (2 * gwei) |}) sample_env in
  let r := assessGas env default_config None fresh_world in
  fst r = Ok (GasRejected "maxFeePerGasTooHigh" (Some (400 * gwei))) /\
  calls (snd r) = [CallFeeData 0].
Proof. split; vm_compute; reflexivity. Qed.



(* ===================================================================== *)
(** ** Reserve trade check *)
(* ===================================================================== *)


(** For an integral percentage the clamp is taken on the percentage itself. *)
Lemma slippage_pct_integral (k : Z) :
  slippage_pct (Some (inject_Z k)) = clamp 0 99 k.
Proof. unfold slippage_pct. simpl. rewrite Z.div_1_r. reflexivity. Qed.


(** The cap of a V2 pair on the side of [token0] (addresses compared
    without case) at 1%, the same cap when the percentage given is 0, the
    liquidity cap of a V3 pool at 5%, and the zero answers. *)
Example reserve_caps :
  fst (reserveTradeCheck pool_env
         (sample_reserve_args "V2" "0xaaA1" (BigIntVal 5000000) None) fresh_world)
  = Ok {| safeAmount := 990000;
          info := Some (InfoV2 "0xAAa1" "0xBBb2" 1000000 500) |} /\
  fst (reserveTradeCheck pool_env
         (sample_reserve_args "V2" "0xaaA1" (BigIntVal 5000000) (Some (inject_Z 0)))
         fresh_world)
  = Ok {| safeAmount := 990000;
          info := Some (InfoV2 "0xAAa1" "0xBBb2" 1000000 500) |} /\
  fst (reserveTradeCheck pool_env
         (sample_reserve_args "V3" "0xaaA1" (Convertible 100) (Some (inject_Z 5)))
         fresh_world)
  = Ok {| safeAmount := 100;
          info := Some (InfoV3 "0xAAa1" "0xBBb2" 40000 (2 ^ 96)) |} /\
  fst (reserveTradeCheck pool_env
         (sample_reserve_args "V4" "0xaaA1" (BigIntVal 100) None) fresh_world)
  = Ok {| safeAmount := 0; info := None |} /\
  fst (reserveTradeCheck pool_env
         (sample_reserve_args "V2" "0xaaA1" (Inconvertible SyntaxError) None)
         fresh_world)
  = Ok {| safeAmount := 0; info := None |}.
Proof. repeat split; vm_compute; reflexivity. Qed.


(* ===================================================================== *)
(** ** The composed guard *)
(* ===================================================================== *)

(** A read whose failure is replaced by a default value always returns. *)
Lemma catch_ret_total {A} (m : M A) (d : A) (w : World) :
  exists a w', catch_ m (fun _ => ret d) w = (Ok a, w').
Proof. unfold catch_, ret. destruct (m w) as [[a|e] w']; eauto. Qed.

Lemma getV2Reserves_total (env : Env) (pair : string) (w : World) :
  exists r w', getV2Reserves env pair w = (Ok r, w').
Proof. apply catch_ret_total. Qed.

Lemma getV3State_total (env : Env) (pool : string) (w : World) :
  exists r w', getV3State env pool w = (Ok r, w').
Proof. apply catch_ret_total. Qed.

Lemma chooseFallbackToken_total (env : Env) (wallet : string)
    (tokens : list string) (minAmt : Z) (w : World) :
  exists r w', chooseFallbackToken env wallet tokens minAmt w = (Ok r, w').
Proof.
  revert w. induction tokens as [|t rest IH]; intros w; simpl.
  - unfold ret. eauto.
  - unfold bind.
    match goal with
    | |- context [catch_ ?m ?h w] =>
        destruct (catch_ret_total m None w) as (r & w' & H); rewrite H
    end.
    destruct r as [b|]; [destruct (negb (b =? 0) && (minAmt <? b))|];
      unfold ret; eauto.
Qed.

(** Unfolds the sequencing of the pipeline, leaving the guards folded. *)
Ltac pipe :=
  cbv beta iota zeta delta
    [runRequired bind ret ran step Date_now g_run g_name g_reason rejected lift
       gets getReadProvider passes negb failing needed_token];
  cbn [app].

(** The three best-effort steps: each returns, whatever it read. *)
Ltac best_effort env cfg p :=
  destruct (truthy (v2PairAddr p));
  [ match goal with
    | |- context [getV2Reserves env ?x ?W] =>
        let H := fresh "H" in
        destruct (getV2Reserves_total env x W) as (? & ? & H); rewrite H
    end
  | destruct (truthy (v3PoolAddr p));
    [ match goal with
      | |- context [getV3State env ?x ?W] =>
          let H := fresh "H" in
          destruct (getV3State_total env x W) as (? & ? & H); rewrite H
      end
    | ] ];
  pipe;
  (destruct (_resolveFlashFallbackTokens cfg (fallbackTokens p));
   [ | match goal with
       | |- context [chooseFallbackToken env ?x ?ts ?m ?W] =>
           let H := fresh "H" in
           destruct (chooseFallbackToken_total env x ts m W) as (? & ? & H);
           rewrite H
       end ]);
  pipe;
  eexists _, _, _, _, _, _, [_; _; _], _; split; reflexivity.

(** The flash-loan step, then the best-effort steps. *)
Ltac flash_step env cfg p :=
  destruct (flashCandidates p) as [|? ?]; pipe;
  [ best_effort env cfg p
  | match goal with
    | |- context [isFlashLoanAvailable env cfg ?cs ?W] =>
        destruct (isFlashLoanAvailable env cfg cs W) as [[? | ?] ?];
        [ | reflexivity ]
    end;
    match goal with
    | |- context [fl_ok ?v] => destruct (fl_ok v)
    end; pipe; [ best_effort env cfg p | reflexivity ] ].

(** The wallet step and what follows it. *)
Ltac wallet_step env cfg p :=
  destruct (neededBalance p) as [nb|];
  [ destruct (truthy (nb_token nb)); pipe;
    [ match goal with
      | |- context [hasWalletBalance env ?x ?t ?n ?W] =>
          destruct (hasWalletBalance env x t n W) as [[? | ?] ?];
          [ | reflexivity ]
      end;
      match goal with
      | |- context [wb_ok ?v] => destruct (wb_ok v)
      end; pipe; [ flash_step env cfg p | reflexivity ]
    | flash_step env cfg p ]
  | change (truthy None) with false; pipe; flash_step env cfg p ].

(** The gas step and what follows it. *)
Ltac gas_step env cfg p :=
  match goal with
  | |- context [assessGas env cfg ?t ?W] =>
      destruct (assessGas env cfg t W) as [[? | ?] ?]; [ | reflexivity ]
  end;
  match goal with
  | |- context [gas_ok ?v] => destruct (gas_ok v)
  end; pipe; [ wallet_step env cfg p | reflexivity ].

(** [runProtections] follows the ordered list of required guards, then runs
    the three best-effort steps. *)
Lemma runProtections_required (env : Env) (cfg : Config) (p : Params) (w : World) :
  match runRequired env (clock env (ticks w)) (requiredGuards env cfg p) []
          (set_ticks (S (ticks w)) w) with
  | (Throw e, w1) => runProtections env cfg p w = (Throw e, w1)
  | (Ok (Rejected v), w1) => runProtections env cfg p w = (Ok v, w1)
  | (Ok (AllPassed tr), w1) =>
      exists slip pt gas reserves fallback lock tr' w2,
        runProtections env cfg p w =
        (Ok {| ok := true; reason := None;
               details := DAll slip pt gas reserves fallback lock;
               trace := (tr ++ tr')%list |}, w2) /\
        map fst tr' = bestEffortSteps
  end.
Proof.
  unfold runProtections, requiredGuards. pipe.
  set (t0 := clock env (ticks w)).
  destruct (enforceCooldown env cfg (routeKey p) _) as [[cd|e] w1]; [|reflexivity].
  destruct (cd_ok cd); pipe; [|reflexivity].
  destruct (isMEVRisk env cfg _) as [[mev|e] w2]; [|reflexivity].
  destruct (risk mev); pipe; [reflexivity|].
  destruct (validateSlippage cfg (expectedOut p) (minOut p)) as [slip|e];
    [|reflexivity].
  destruct (slip_ok slip); pipe; [|reflexivity].
  destruct (isFiniteNumber (profitUsd p) && isFiniteNumber (notionalUsd p)).
  - set (pt := meetsProfitThresholdUSD cfg _ _).
    destruct (pt_ok pt); pipe; [|reflexivity].
    gas_step env cfg p.
  - destruct (meetsProfitThresholdUSD_Chainlink env cfg _ _ _ _ _ _ _)
      as [[pt|e] w3]; [|reflexivity].
    destruct (pt_ok pt); pipe; [|reflexivity].
    gas_step env cfg p.
Qed.

(** What a run of an ordered list of guards returns: after all of them, the
    trace holds their names in order and each let the run go on; a rejection
    comes from the guard at some position [k], after the guards before it let
    the run go on; it carries that guard's reason and failing verdict, and
    its trace stops at that guard. *)
Lemma runRequired_outcome (env : Env) (t0 : Z) (gs : list Guard) :
  forall (tr : Trace) (w : World) (r : Required) (w' : World),
    runRequired env t0 gs tr w = (Ok r, w') ->
    match r with
    | AllPassed tr' =>
        map fst tr' = (map fst tr ++ map g_name gs)%list /\
        Forall let_through gs
    | Rejected v =>
        ok v = false /\
        exists k g wa wb,
          nth_error gs k = Some g /\
          Forall let_through (firstn k gs) /\
          g_run g wa = (Ok (Ran (details v)), wb) /\
          reason v = Some (g_reason g) /\
          passes (details v) = false /\
          map fst (trace v) = (map fst tr ++ map g_name (firstn (S k) gs))%list
    end.
Proof.
  induction gs as [|g rest IH]; intros tr w r w' H.
  - simpl in H. unfold ret in H. inversion H; subst. simpl.
    rewrite app_nil_r. split; [reflexivity | constructor].
  - simpl in H. unfold bind in H.
    destruct (g_run g w) as [[rep|e] w1] eqn:Eg; [|discriminate H].
    unfold step, bind, Date_now, ret in H.
    set (tr1 := (tr ++ [(g_name g, clock env (ticks w1) - t0)])%list) in H.
    assert (Htr1 : map fst tr1 = (map fst tr ++ [g_name g])%list)
      by (unfold tr1; rewrite map_app; reflexivity).
    assert (Hnext :
      let_through g ->
      forall r w', runRequired env t0 rest tr1 (set_ticks (S (ticks w1)) w1) = (Ok r, w') ->
      match r with
      | AllPassed tr' =>
          map fst tr' = (map fst tr ++ map g_name (g :: rest))%list /\
          Forall let_through (g :: rest)
      | Rejected v =>
          ok v = false /\
          exists k g0 wa wb,
            nth_error (g :: rest) k = Some g0 /\
            Forall let_through (firstn k (g :: rest)) /\
            g_run g0 wa = (Ok (Ran (details v)), wb) /\
            reason v = Some (g_reason g0) /\
            passes (details v) = false /\
            map fst (trace v)
            = (map fst tr ++ map g_name (firstn (S k) (g :: rest)))%list
      end).
    { intros Hg r0 w0 H0. specialize (IH _ _ _ _ H0).
      destruct r0 as [v|tr'].
      - destruct IH as (Hok & k & g0 & wa & wb & Hn & Hbefore & Hrun & Hr & Hp & Ht).
        split; [exact Hok|]. exists (S k), g0, wa, wb.
        repeat split; auto.
        + simpl. constructor; assumption.
        + rewrite Ht, Htr1, <- app_assoc. reflexivity.
      - destruct IH as [IH1 IH2]. split.
        + rewrite IH1, Htr1, <- app_assoc. reflexivity.
        + constructor; assumption. }
    destruct rep as [|d].
    { apply (Hnext (ex_intro _ w (ex_intro _ w1 (ex_intro _ Skipped (conj Eg I)))) _ _ H). }
    destruct (passes d) eqn:Ep.
    { apply (Hnext (ex_intro _ w (ex_intro _ w1 (ex_intro _ (Ran d) (conj Eg Ep)))) _ _ H). }
    inversion H; subst. simpl. split; [reflexivity|].
    exists 0%nat, g, w, w1. repeat split; auto.
Qed.

(** A run that passes every required guard and one that is stopped by the
    slippage guard, the third in order. *)
Example pipeline_runs :
  (exists v w',
     runProtections sample_env default_config sample_params fresh_world = (Ok v, w') /\
     ok v = true /\
     map fst (trace v) =
       ["cooldown"; "mev"; "slippage"; "profit"; "gas"; "walletBalance";
        "flashLoan"; "poolState"; "fallback"; "lock"]) /\
  (exists v w',
     runProtections sample_env default_config
       (with_amounts (JBig 1000) (JBig 900) sample_params) fresh_world = (Ok v, w') /\
     ok v = false /\ reason v = Some "slippage" /\
     map fst (trace v) = ["cooldown"; "mev"; "slippage"] /\
     calls w' = []).
Proof.
  split; eexists _, _; (split; [vm_compute; reflexivity|]);
    repeat split; reflexivity.
Qed.

(** C1. [runProtections] evaluates the required guards in the order cooldown,
    MEV risk, slippage, profit, gas, wallet balance, flash-loan availability.
    The first of them that fails ends the run at once: the verdict has
    [ok = false], that guard's reason, its failing verdict as details and the
    trace up to that guard, and the world is the one that guard left. The
    pool-state, fallback and lock steps run only after the seven have passed,
    and whatever they return the verdict has [ok = true]. *)
Theorem runProtections_short_circuit (env : Env) (cfg : Config) (p : Params) (w : World) :
  let guards := requiredGuards env cfg p in
  map g_name guards =
    ["cooldown"; "mev"; "slippage"; "profit"; "gas"; "walletBalance"; "flashLoan"] /\
  match runRequired env (clock env (ticks w)) guards [] (set_ticks (S (ticks w)) w) with
  | (Throw e, w1) => runProtections env cfg p w = (Throw e, w1)
  | (Ok (Rejected v), w1) =>
      runProtections env cfg p w = (Ok v, w1) /\
      ok v = false /\
      exists k g wa wb,
        nth_error guards k = Some g /\
        Forall let_through (firstn k guards) /\
        g_run g wa = (Ok (Ran (details v)), wb) /\
        reason v = Some (g_reason g) /\
        passes (details v) = false /\
        map fst (trace v) = map g_name (firstn (S k) guards)
  | (Ok (AllPassed tr), w1) =>
      (map fst tr = map g_name guards /\ Forall let_through guards) /\
      exists slip pt gas reserves fallback lock tr' w2,
        runProtections env cfg p w =
        (Ok {| ok := true; reason := None;
               details := DAll slip pt gas reserves fallback lock;
               trace := (tr ++ tr')%list |}, w2) /\
        map fst tr' = bestEffortSteps
  end.
Proof.
  intros guards. split; [reflexivity|].
  pose proof (runProtections_required env cfg p w) as Hreq.
  fold guards in Hreq.
  destruct (runRequired env (clock env (ticks w)) guards [] (set_ticks (S (ticks w)) w))
    as [[r|e] w1] eqn:Hrun; [|exact Hreq].
  pose proof (runRequired_outcome _ _ _ _ _ _ _ Hrun) as Hout.
  destruct r as [v|tr].
  - split; [exact Hreq|]. exact Hout.
  - split; [exact Hout|]. exact Hreq.
Qed.

(** C3 does not hold of the code: two exceptions leave [runProtections].
    A Number [expectedOut] with a bigint [minOut] passes both comparisons of
    [validateSlippage] and the subtraction raises a TypeError; an amount that
    [BigInt(...)] rejects raises in the first statement of
    [hasWalletBalance]. Neither is caught, so the run ends without a
    verdict. *)
Theorem runProtections_exception_escapes :
  fst (runProtections sample_env default_config
         (with_amounts (JNum 1000) (JBig 990) sample_params) fresh_world)
  = Throw TypeError /\
  fst (runProtections sample_env default_config
         (with_neededBalance
            (Some {| nb_token := Some "0xtoken";
                     nb_amountWei := Inconvertible TypeError |})
            sample_params) fresh_world)
  = Throw TypeError.
Proof. split; vm_compute; reflexivity. Qed.

(* --------------------------------------------------------------------- *)
(** *** The wallet-balance step *)

Lemma runRequired_app (env : Env) (t0 : Z) (gs1 gs2 : list Guard) :
  forall (tr : Trace) (w : World),
    runRequired env t0 (gs1 ++ gs2) tr w =
    match runRequired env t0 gs1 tr w with
    | (Ok (AllPassed tr1), w1) => runRequired env t0 gs2 tr1 w1
    | other => other
    end.
Proof.
  induction gs1 as [|g rest IH]; intros tr w; simpl.
  - reflexivity.
  - unfold bind. destruct (g_run g w) as [[rep|e] w1]; [|reflexivity].
    unfold step, bind, Date_now, ret.
    destruct rep as [|d]; [apply IH|].
    destruct (passes d); [apply IH | reflexivity].
Qed.

(** C10, as stated, fails: a native-asset requirement is enforced through
    the pipeline when its token is the zero address, a truthy string. With a
    native balance of 5 wei, a requirement of 10 wei is refused with
    ['insufficientBalance'] after a native balance query, and a requirement
    of 5 wei passes. *)
Lemma native_requirement_enforced :
  truthy (Some ZeroAddress) = true /\
  runProtections sample_env default_config (native_requirement 10) fresh_world =
  (Ok {| ok := false; reason := Some "insufficientBalance";
         details := DWallet {| wb_ok := false; wb_balance := 5 |};
         trace := [("cooldown", 2); ("mev", 3); ("slippage", 4); ("profit", 5);
                   ("gas", 6); ("walletBalance", 7)] |},
   {| ticks := 8; endpoint := 0; rotations := [];
      calls := [CallFeeData 0; CallEstimateGas 0; CallGetBalance 0 "0xwallet"];
      lastActionAt := {["route-1" := 1700000000001]};
      mev_file := FileAbsent; mev_writable := true |}) /\
  (exists v w',
     runProtections sample_env default_config (native_requirement 5) fresh_world
     = (Ok v, w') /\ ok v = true).
Proof.
  split; [reflexivity|]. split; [vm_compute; reflexivity|].
  eexists _, _. split; [vm_compute; reflexivity | reflexivity].
Qed.

(** C10, amended. Once the five guards before it have passed, the
    wallet-balance step evaluates [hasWalletBalance] exactly when
    [neededBalance] has a truthy token. With no [neededBalance] or a falsy
    token the step is only recorded in the trace, issues no call, and the
    run is the one of the same parameters without [neededBalance], whatever
    [amountWei] was. With a truthy token the run goes on, is refused with
    ['insufficientBalance'] or throws as [hasWalletBalance] decides; the zero
    address is a truthy token, for which [hasWalletBalance] queries the
    native balance as it does for an absent token. *)
Theorem wallet_step_gate (env : Env) (cfg : Config) (p : Params) (w : World) :
  let t0 := clock env (ticks w) in
  let w0 := set_ticks (S (ticks w)) w in
  let guards := requiredGuards env cfg p in
  let token := needed_token (neededBalance p) in
  (truthy token = false ->
   runProtections env cfg p w = runProtections env cfg (with_neededBalance None p) w) /\
  (forall tr5 w5,
     runRequired env t0 (firstn 5 guards) [] w0 = (Ok (AllPassed tr5), w5) ->
     let recorded w6 := (tr5 ++ [("walletBalance", clock env (ticks w6) - t0)])%list in
     (truthy token = false ->
      runRequired env t0 (firstn 6 guards) [] w0
      = (Ok (AllPassed (recorded w5)), set_ticks (S (ticks w5)) w5)) /\
     (truthy token = true ->
      exists nb,
        neededBalance p = Some nb /\
        match hasWalletBalance env (wallet p) (nb_token nb) (nb_amountWei nb) w5 with
        | (Throw e, w6) => runProtections env cfg p w = (Throw e, w6)
        | (Ok wb, w6) =>
            if wb_ok wb then
              runRequired env t0 (firstn 6 guards) [] w0
              = (Ok (AllPassed (recorded w6)), set_ticks (S (ticks w6)) w6)
            else
              runProtections env cfg p w
              = (Ok (rejected "insufficientBalance" (DWallet wb) (recorded w6)),
                 set_ticks (S (ticks w6)) w6)
        end)) /\
  (truthy (Some ZeroAddress) = true /\
   forall holder needed w',
     hasWalletBalance env holder (Some ZeroAddress) needed w'
     = hasWalletBalance env holder None needed w' /\
     forall amount balance,
       BigInt needed = Ok amount ->
       rpc_getBalance env (endpoint w') holder = Some balance ->
       hasWalletBalance env holder (Some ZeroAddress) needed w'
       = (Ok {| wb_ok := amount <=? balance; wb_balance := balance |},
          log_call (CallGetBalance (endpoint w') holder) w')).
Proof.
  intros t0 w0 guards token.
  split; [|split].
  - intros Hfalsy. unfold runProtections.
    cbn [with_neededBalance routeKey expectedOut minOut txRequest profitUsd
           notionalUsd profitToken profitAmountWei notionalToken notionalAmountWei
           feedMap wallet v2PairAddr v3PoolAddr fallbackTokens neededBalance
           flashCandidates].
    fold token. rewrite Hfalsy.
    change (truthy (needed_token None)) with false.
    reflexivity.
  - intros tr5 w5 H5 recorded.
    pose proof (runProtections_required env cfg p w) as Hreq.
    fold t0 w0 guards in Hreq.
    assert (Hsplit6 : forall g6 g7, guards = (firstn 5 guards ++ [g6; g7])%list ->
              firstn 6 guards = (firstn 5 guards ++ [g6])%list).
    { intros g6 g7 Hg. unfold guards, requiredGuards in *. simpl in *.
      inversion Hg; subst. reflexivity. }
    assert (Hg : guards =
              (firstn 5 guards ++ [nth 5 guards (Build_Guard "" "" (ret Skipped));
                                   nth 6 guards (Build_Guard "" "" (ret Skipped))])%list)
      by reflexivity.
    rewrite (Hsplit6 _ _ Hg).
    rewrite Hg in Hreq.
    rewrite runRequired_app in Hreq. rewrite runRequired_app. rewrite H5 in *.
    unfold guards, requiredGuards in Hreq |- *.
    cbn [nth firstn] in Hreq |- *.
    unfold token. destruct (neededBalance p) as [nb|]; cbn [needed_token].
    + split.
      * intros Hfalsy. rewrite Hfalsy. pipe. reflexivity.
      * intros Htruthy. exists nb. split; [reflexivity|].
        rewrite Htruthy in Hreq |- *. revert Hreq. pipe.
        destruct (hasWalletBalance env (wallet p) (nb_token nb) (nb_amountWei nb) w5)
          as [[wb|e] w6]; [|intros Hreq; exact Hreq].
        destruct (wb_ok wb); [intros _; reflexivity|].
        intros Hreq. exact Hreq.
    + split.
      * intros _. pipe. reflexivity.
      * change (truthy None) with false. discriminate.
  - split; [reflexivity|]. intros holder needed w'. split; [reflexivity|].
    intros amount balance Hn Hb.
    unfold hasWalletBalance. run_reads. rewrite Hn. simpl. rewrite Hb. reflexivity.
Qed.

(* --------------------------------------------------------------------- *)
(** *** Where the pipeline does return a verdict *)










(* ===================================================================== *)
(** ** Further properties of the read layer and the liquidity guards *)
(* ===================================================================== *)

(** X2. Scenario D of the specification: with both lending sources switched
    off, [isFlashLoanAvailable] fails with ['loansDisabledInEnv'] and leaves
    the world as it was, so no remote call is issued. *)
Theorem isFlashLoanAvailable_disabled (env : Env) (cfg : Config)
    (candidates : list FlashCandidate) (w : World) :
  AAVE_LOAN cfg = false -> BAL_LOAN cfg = false ->
  isFlashLoanAvailable env cfg candidates w
  = (Ok (FlashRejected "loansDisabledInEnv" None), w).
Proof.
  intros Ha Hb. unfold isFlashLoanAvailable. rewrite Ha, Hb. reflexivity.
Qed.

(** The statement above with the default settings. *)
Lemma isFlashLoanAvailable_disabled_witness :
  isFlashLoanAvailable sample_env default_config
    [{| fc_type := "aave"; fc_token := "0xtoken"; fc_addr := "0xpool";
        fc_needed := BigIntVal 1 |}] fresh_world
  = (Ok (FlashRejected "loansDisabledInEnv" None), fresh_world).
Proof.
  exact (isFlashLoanAvailable_disabled sample_env default_config _ fresh_world
           eq_refl eq_refl).
Defined.

(** X3. Scenario F of the specification: a read that fails on the active
    endpoint and succeeds on the endpoint a rotation makes active returns
    that reply; exactly one rotation is recorded, with the label of the read
    as reason, and the call was sent once to each endpoint. *)
Theorem readCall_failover (env : Env) (A : Type) (label : string)
    (call : nat -> Call) (reply : nat -> option A) (a : A) (w : World) :
  reply (endpoint w) = None ->
  reply (next_endpoint env (endpoint w)) = Some a ->
  exists w',
    readCall env label (fun p => remote (call p) (reply p)) w = (Ok a, w') /\
    endpoint w' = next_endpoint env (endpoint w) /\
    rotations w' = (rotations w ++ [label])%list /\
    calls w' = (calls w ++ [call (endpoint w);
                            call (next_endpoint env (endpoint w))])%list.
Proof.
  intros H1 H2. unfold readCall. run_reads. rewrite H1. simpl. rewrite H2.
  eexists. split; [reflexivity|]. simpl.
  rewrite <- app_assoc. repeat split.
Qed.

(** The statement above for a balance query answered by the second endpoint
    only. *)
Lemma readCall_failover_witness :
  exists w',
    readCall sample_env "getBalance"
      (fun p => remote (CallGetBalance p "0xwallet")
                  (if (p =? 1)%nat then Some 7 else None)) fresh_world
    = (Ok 7, w') /\
    endpoint w' = 1%nat /\
    rotations w' = ["getBalance"] /\
    calls w' = [CallGetBalance 0 "0xwallet"; CallGetBalance 1 "0xwallet"].
Proof.
  exact (readCall_failover sample_env Z "getBalance"
           (fun p => CallGetBalance p "0xwallet")
           (fun p => if (p =? 1)%nat then Some 7 else None) 7 fresh_world
           eq_refl eq_refl).
Defined.

(** X4. The fallback candidates are at most five, taken from the list given
    at run time when it is not empty and from the configured list
    otherwise. *)
Theorem resolveFlashFallbackTokens_bounded (cfg : Config) (runtimeList : list string) :
  (List.length (_resolveFlashFallbackTokens cfg runtimeList) <= 5)%nat /\
  (runtimeList <> [] ->
   _resolveFlashFallbackTokens cfg runtimeList = firstn 5 runtimeList) /\
  _resolveFlashFallbackTokens cfg [] = firstn 5 (FLASH_FALLBACK_TOKENS cfg).
Proof.
  unfold _resolveFlashFallbackTokens. repeat split.
  - apply List.firstn_le_length.
  - intros H. destruct runtimeList; [congruence | reflexivity].
Qed.

(** X5. The wallet-balance guard fails closed: when the balance read fails
    on the active endpoint and on the one after the rotation, the verdict is
    [ok = false] with a balance of 0, for the native asset and for a token. *)
Theorem hasWalletBalance_fail_closed (env : Env) (holder : string)
    (token : option string) (needed : BigIntArg) (amount : Z) (w : World) :
  BigInt needed = Ok amount ->
  (forall p, rpc_getBalance env p holder = None) ->
  (forall p t, rpc_balanceOf env p t holder = None) ->
  exists w',
    hasWalletBalance env holder token needed w
    = (Ok {| wb_ok := false; wb_balance := 0 |}, w').
Proof.
  intros Hn Hnative Herc. unfold hasWalletBalance. run_reads. rewrite Hn. simpl.
  destruct (negb (truthy token) || _); simpl;
    rewrite ?Hnative, ?Herc; simpl; rewrite ?Hnative, ?Herc; eauto.
Qed.

(** The endpoints of the samples with every balance read failing. *)
Lemma hasWalletBalance_fail_closed_witness :
  exists w',
    hasWalletBalance
      {| clock := clock sample_env; next_endpoint := next_endpoint sample_env;
         rpc_getFeeData := rpc_getFeeData sample_env;
         rpc_estimateGas := rpc_estimateGas sample_env;
         rpc_getBalance := fun _ _ => None;
         rpc_balanceOf := fun _ _ _ => None;
         rpc_decimals := rpc_decimals sample_env;
         rpc_latestRoundData := rpc_latestRoundData sample_env;
         rpc_token0 := rpc_token0 sample_env;
         rpc_token1 := rpc_token1 sample_env;
         rpc_getReserves := rpc_getReserves sample_env;
         rpc_slot0 := rpc_slot0 sample_env;
         rpc_liquidity := rpc_liquidity sample_env;
         formatUnits := formatUnits sample_env |}
      "0xwallet" (Some "0xtoken") (BigIntVal 0) fresh_world
    = (Ok {| wb_ok := false; wb_balance := 0 |}, w').
Proof.
  apply (hasWalletBalance_fail_closed _ "0xwallet" (Some "0xtoken") (BigIntVal 0) 0
           fresh_world eq_refl); intros; reflexivity.
Defined.

(* ===================================================================== *)
(** ** The cooldown map across the pipeline *)
(* ===================================================================== *)

(** X6. A cooldown check for one key never touches another key: the stored
    timestamp of every other key is as before, and nothing but the clock
    position and the map changes. *)
Theorem enforceCooldown_other_keys (env : Env) (cfg : Config) (key other : string)
    (w : World) :
  other <> key ->
  let w' := snd (enforceCooldown env cfg key w) in
  lastActionAt w' !! other = lastActionAt w !! other /\
  calls w' = calls w /\ endpoint w' = endpoint w /\ rotations w' = rotations w /\
  mev_file w' = mev_file w /\ ticks w' = S (ticks w).
Proof.
  intros Hne. unfold enforceCooldown, bind, Date_now, gets, modify, ret; simpl.
  destruct (_ <? _); simpl; repeat split.
  rewrite lookup_insert_ne by congruence. reflexivity.
Qed.

(** Two routes checked one after the other: the second is judged on its own
    timestamp. *)
Lemma enforceCooldown_other_keys_witness :
  let w' := snd (enforceCooldown sample_env default_config "route-1" fresh_world) in
  lastActionAt w' !! "route-2" = lastActionAt fresh_world !! "route-2" /\
  calls w' = calls fresh_world /\ endpoint w' = endpoint fresh_world /\
  rotations w' = rotations fresh_world /\
  mev_file w' = mev_file fresh_world /\ ticks w' = S (ticks fresh_world).
Proof.
  apply (enforceCooldown_other_keys sample_env default_config "route-1" "route-2"
           fresh_world).
  discriminate.
Defined.

Lemma keeps_ret {A} (a : A) : keeps_cooldowns (ret a).
Proof. intros w. reflexivity. Qed.

Lemma keeps_throw {A} (e : exn) : keeps_cooldowns (@throw A e).
Proof. intros w. reflexivity. Qed.

Lemma keeps_lift {A} (r : result A) : keeps_cooldowns (lift r).
Proof. intros w. reflexivity. Qed.

Lemma keeps_gets {A} (f : World -> A) : keeps_cooldowns (gets f).
Proof. intros w. reflexivity. Qed.

Lemma keeps_bind {A B} (m : M A) (k : A -> M B) :
  keeps_cooldowns m -> (forall a, keeps_cooldowns (k a)) -> keeps_cooldowns (bind m k).
Proof.
  intros Hm Hk w. unfold bind. specialize (Hm w).
  destruct (m w) as [[a|e] w1]; simpl in *; [|exact Hm].
  rewrite (Hk a w1). exact Hm.
Qed.

Lemma keeps_catch {A} (m : M A) (h : exn -> M A) :
  keeps_cooldowns m -> (forall e, keeps_cooldowns (h e)) -> keeps_cooldowns (catch_ m h).
Proof.
  intros Hm Hh w. unfold catch_. specialize (Hm w).
  destruct (m w) as [[a|e] w1]; simpl in *; [exact Hm|].
  rewrite (Hh e w1). exact Hm.
Qed.

Lemma keeps_all2 {A B} (a : M A) (b : M B) :
  keeps_cooldowns a -> keeps_cooldowns b -> keeps_cooldowns (Promise_all2 a b).
Proof.
  intros Ha Hb w. unfold Promise_all2. specialize (Ha w).
  destruct (a w) as [ra w1]. specialize (Hb w1).
  destruct (b w1) as [rb w2]. simpl in *. congruence.
Qed.

Lemma keeps_Date_now (env : Env) : keeps_cooldowns (Date_now env).
Proof. intros w. reflexivity. Qed.

Lemma keeps_remote {A} (c : Call) (reply : option A) : keeps_cooldowns (remote c reply).
Proof. intros w. reflexivity. Qed.

Lemma keeps_rotateProvider (env : Env) (reason : string) :
  keeps_cooldowns (rotateProvider env reason).
Proof. intros w. reflexivity. Qed.

Lemma keeps_fs_writeFileSync (keep : list MevEntry) :
  keeps_cooldowns (fs_writeFileSync keep).
Proof. intros w. unfold fs_writeFileSync. destruct (mev_writable w); reflexivity. Qed.

Lemma keeps_fs_readFileSync : keeps_cooldowns fs_readFileSync.
Proof. intros w. reflexivity. Qed.

(** Proves that a computation built from the operations above keeps the
    cooldown map, case by case on its tests. *)
Ltac keeps_step :=
  first
    [ apply keeps_ret | apply keeps_throw | apply keeps_lift | apply keeps_gets
    | apply keeps_Date_now | apply keeps_remote | apply keeps_rotateProvider
    | apply keeps_fs_writeFileSync | apply keeps_fs_readFileSync
    | assumption
    | apply keeps_bind; [ | intros ? ]
    | apply keeps_catch; [ | intros ? ]
    | apply keeps_all2
    | match goal with
      | |- keeps_cooldowns (if ?b then _ else _) => destruct b
      | |- keeps_cooldowns (match ?x with _ => _ end) => destruct x
      | |- keeps_cooldowns (let (_, _) := ?x in _) => destruct x
      | |- keeps_cooldowns (let _ := _ in _) => cbv zeta
      end ].

Ltac keeps := repeat keeps_step.

Lemma keeps_readCall {A} (env : Env) (label : string) (fn : nat -> M A) :
  (forall p, keeps_cooldowns (fn p)) -> keeps_cooldowns (readCall env label fn).
Proof.
  intros Hfn. unfold readCall, readFailover, getReadProvider. keeps; try apply Hfn.
Qed.

Lemma keeps_readCallWithProvider {A} (env : Env) (label : string) (p : nat)
    (fn : nat -> M A) :
  (forall p, keeps_cooldowns (fn p)) ->
  keeps_cooldowns (readCallWithProvider env label p fn).
Proof.
  intros Hfn. unfold readCallWithProvider, readFailover, getReadProvider.
  keeps; try apply Hfn.
Qed.

Lemma keeps_isMEVRisk (env : Env) (cfg : Config) : keeps_cooldowns (isMEVRisk env cfg).
Proof. unfold isMEVRisk, fs_existsSync. keeps. Qed.

Lemma keeps_assessGas (env : Env) (cfg : Config) (tx : option TxRequest) :
  keeps_cooldowns (assessGas env cfg tx).
Proof.
  unfold assessGas, fetchFee, estimateGasLimit.
  keeps; try (apply keeps_readCall; intros p; keeps).
Qed.

Lemma keeps_fetchPrice (env : Env) (cfg : Config) (p : nat)
    (feedMap : gmap string string) (token : option string) :
  keeps_cooldowns (fetchPrice env cfg p feedMap token).
Proof.
  unfold fetchPrice. keeps; try (apply keeps_readCallWithProvider; intros q; keeps).
Qed.

Lemma keeps_fetchTokenDecimals (env : Env) (p : nat) (token : option string) :
  keeps_cooldowns (fetchTokenDecimals env p token).
Proof.
  unfold fetchTokenDecimals. keeps; try (apply keeps_readCallWithProvider; intros q; keeps).
Qed.

Lemma keeps_Chainlink (env : Env) (cfg : Config) (p : nat)
    (pt : option string) (pa : option Z) (nt : option string) (na : option Z)
    (feedMap : gmap string string) :
  keeps_cooldowns (meetsProfitThresholdUSD_Chainlink env cfg p pt pa nt na feedMap).
Proof.
  unfold meetsProfitThresholdUSD_Chainlink, Promise_all4, Promise_all3.
  keeps; try first [apply keeps_fetchPrice | apply keeps_fetchTokenDecimals].
Qed.

Lemma keeps_hasWalletBalance (env : Env) (holder : string) (token : option string)
    (needed : BigIntArg) :
  keeps_cooldowns (hasWalletBalance env holder token needed).
Proof.
  unfold hasWalletBalance. keeps; try (apply keeps_readCall; intros p; keeps).
Qed.

Lemma keeps_firstWithBalance (env : Env) (cs : list FlashCandidate) :
  keeps_cooldowns (firstWithBalance env cs).
Proof.
  induction cs as [|c rest IH]; simpl; [apply keeps_ret|].
  unfold checkBalance. keeps; try (apply keeps_readCall; intros p; keeps).
Qed.

Lemma keeps_isFlashLoanAvailable (env : Env) (cfg : Config) (cs : list FlashCandidate) :
  keeps_cooldowns (isFlashLoanAvailable env cfg cs).
Proof. unfold isFlashLoanAvailable. keeps; try apply keeps_firstWithBalance. Qed.

Lemma keeps_getV2Reserves (env : Env) (pair : string) :
  keeps_cooldowns (getV2Reserves env pair).
Proof.
  unfold getV2Reserves, Promise_all3. keeps; try (apply keeps_readCall; intros p; keeps).
Qed.

Lemma keeps_getV3State (env : Env) (pool : string) :
  keeps_cooldowns (getV3State env pool).
Proof.
  unfold getV3State, Promise_all4, Promise_all3. keeps;
    try (apply keeps_readCall; intros p; keeps).
Qed.

Lemma keeps_chooseFallbackToken (env : Env) (holder : string) (tokens : list string)
    (minAmt : Z) :
  keeps_cooldowns (chooseFallbackToken env holder tokens minAmt).
Proof.
  induction tokens as [|t rest IH]; simpl; [apply keeps_ret|].
  keeps; try (apply keeps_readCall; intros p; keeps).
Qed.

Lemma keeps_after {A B} (m : M A) (k : A -> M B) (w : World) :
  (forall a, keeps_cooldowns (k a)) ->
  lastActionAt (snd (bind m k w)) = lastActionAt (snd (m w)).
Proof.
  intros Hk. unfold bind. destruct (m w) as [[a|e] w1]; simpl; [|reflexivity].
  apply Hk.
Qed.

(** X7. Only the cooldown guard writes the cooldown map during a run of the
    pipeline. So a run whose cooldown check passes has started the cooldown
    of its route by the time it ends, whether it is then approved, refused by
    a later guard or ended by an exception; and a run refused by the cooldown
    leaves the map as it was. *)
Theorem runProtections_cooldown_consumed (env : Env) (cfg : Config) (p : Params)
    (w : World) :
  let now := clock env (S (ticks w)) in
  let last := default 0 (lastActionAt w !! routeKey p) in
  lastActionAt (snd (runProtections env cfg p w)) =
  if now - last <? COOLDOWN_MS cfg then lastActionAt w
  else <[routeKey p := now]> (lastActionAt w).
Proof.
  intros now last. unfold runProtections.
  unfold bind at 1. unfold Date_now at 1. cbn beta iota.
  rewrite keeps_after.
  - unfold enforceCooldown, bind, Date_now, gets, modify, ret; simpl.
    fold now last. destruct (now - last <? COOLDOWN_MS cfg); reflexivity.
  - intros cd. unfold step, getReadProvider.
    repeat first
      [ apply keeps_isMEVRisk | apply keeps_Chainlink | apply keeps_assessGas
      | apply keeps_hasWalletBalance | apply keeps_isFlashLoanAvailable
      | apply keeps_getV2Reserves | apply keeps_getV3State
      | apply keeps_chooseFallbackToken
      | keeps_step ].
Qed.

(** A trade refused for its slippage has started the cooldown of its route:
    the same route asked again at once is refused by the cooldown. *)
Example cooldown_after_refusal :
  let p := with_amounts (JBig 1000) (JBig 900) sample_params in
  let r1 := runProtections sample_env default_config p fresh_world in
  let r2 := runProtections sample_env default_config sample_params (snd r1) in
  (exists v, fst r1 = Ok v /\ reason v = Some "slippage") /\
  (exists v, fst r2 = Ok v /\ reason v = Some "cooldown").
Proof.
  split; eexists; (split; [vm_compute; reflexivity | reflexivity]).
Qed.

(* ===================================================================== *)
(** ** The read helpers *)
(* ===================================================================== *)

(** X8. A read answered by the active endpoint is sent once and rotates
    nothing. A read that fails on the active endpoint and again on the one
    the rotation makes active is rejected after exactly two attempts and one
    rotation: there is no third attempt. *)
Theorem readCall_attempts (env : Env) (A : Type) (label : string)
    (call : nat -> Call) (reply : nat -> option A) (w : World) :
  (forall a, reply (endpoint w) = Some a ->
     readCall env label (fun p => remote (call p) (reply p)) w
     = (Ok a, log_call (call (endpoint w)) w)) /\
  (reply (endpoint w) = None ->
   reply (next_endpoint env (endpoint w)) = None ->
   exists w',
     readCall env label (fun p => remote (call p) (reply p)) w
     = (Throw RemoteError, w') /\
     endpoint w' = next_endpoint env (endpoint w) /\
     rotations w' = (rotations w ++ [label])%list /\
     calls w' = (calls w ++ [call (endpoint w);
                             call (next_endpoint env (endpoint w))])%list).
Proof.
  split.
  - intros a Ha. unfold readCall. run_reads. rewrite Ha. reflexivity.
  - intros H1 H2. unfold readCall. run_reads. rewrite H1. simpl. rewrite H2.
    eexists. split; [reflexivity|]. simpl. rewrite <- app_assoc. repeat split.
Qed.

(** X9. [readCallWithProvider] sends its first attempt to the endpoint it was
    handed, active or not. When that fails, the pool rotates from the active
    endpoint and the one retry goes to the endpoint then active. *)
Theorem readCallWithProvider_attempts (env : Env) (A : Type) (label : string)
    (handed : nat) (call : nat -> Call) (reply : nat -> option A) (w : World) :
  (forall a, reply handed = Some a ->
     readCallWithProvider env label handed (fun p => remote (call p) (reply p)) w
     = (Ok a, log_call (call handed) w)) /\
  (reply handed = None ->
   exists w',
     readCallWithProvider env label handed (fun p => remote (call p) (reply p)) w
     = (match reply (next_endpoint env (endpoint w)) with
        | Some a => Ok a
        | None => Throw RemoteError
        end, w') /\
     endpoint w' = next_endpoint env (endpoint w) /\
     rotations w' = (rotations w ++ [label])%list /\
     calls w' = (calls w ++ [call handed;
                             call (next_endpoint env (endpoint w))])%list).
Proof.
  split.
  - intros a Ha. unfold readCallWithProvider. run_reads. rewrite Ha. reflexivity.
  - intros H1. unfold readCallWithProvider. run_reads. rewrite H1. simpl.
    eexists. split; [reflexivity|]. simpl. rewrite <- app_assoc. repeat split.
Qed.


(* ===================================================================== *)
(** ** More on the slippage, gas and reserve guards *)
(* ===================================================================== *)



(** X12. The fee fields of the request do not spare the fee read: when the
    fee data cannot be fetched from the active endpoint nor from the next
    one, [assessGas] fails with ['feeDataNull'] whatever the request holds,
    without any gas-estimation call. When the fee data is fetched, every fee
    field present in the request is the one used, the fetched value filling
    only the fields the request leaves out. *)
Theorem assessGas_request_fees (env : Env) (cfg : Config) (tx : option TxRequest)
    (w : World) :
  (rpc_getFeeData env (endpoint w) = None ->
   rpc_getFeeData env (next_endpoint env (endpoint w)) = None ->
   exists w',
     assessGas env cfg tx w = (Ok (GasRejected "feeDataNull" None), w') /\
     estimate_calls w' = estimate_calls w) /\
  (forall fee w1,
     fetchFee env tx w = (Ok (Some fee), w1) ->
     exists fd,
       (rpc_getFeeData env (endpoint w) = Some fd \/
        rpc_getFeeData env (next_endpoint env (endpoint w)) = Some fd) /\
       gasPrice fee = coalesce_fee (tx_field tx_gasPrice tx) (fd_gasPrice fd) /\
       maxFeePerGas fee
       = coalesce_fee (tx_field tx_maxFeePerGas tx) (fd_maxFeePerGas fd) /\
       maxPriorityFeePerGas fee
       = coalesce_fee (tx_field tx_maxPriorityFeePerGas tx)
           (fd_maxPriorityFeePerGas fd) /\
       (forall t v, tx = Some t -> tx_maxFeePerGas t = Some v ->
                    maxFeePerGas fee = Some v) /\
       (forall t v, tx = Some t -> tx_gasPrice t = Some v ->
                    gasPrice fee = Some v)).
Proof.
  split.
  - intros H1 H2. unfold assessGas, bind, fetchFee. run_reads.
    rewrite H1. simpl. rewrite H2. simpl.
    eexists. split; [reflexivity|].
    unfold estimate_calls; simpl. rewrite !List.filter_app; simpl.
    rewrite !app_nil_r. reflexivity.
  - intros fee w1. unfold fetchFee. run_reads.
    destruct (rpc_getFeeData env (endpoint w)) as [fd|] eqn:E1; simpl.
    + intros H. inversion H; subst; clear H. exists fd. simpl.
      repeat split; auto; intros t v Ht Hv; subst; simpl; rewrite Hv; reflexivity.
    + destruct (rpc_getFeeData env (next_endpoint env (endpoint w))) as [fd|] eqn:E2;
        simpl; intros H; inversion H; subst; clear H.
      exists fd. simpl.
      repeat split; auto; intros t v Ht Hv; subst; simpl; rewrite Hv; reflexivity.
Qed.

(** X13. [reserveTradeCheck] reads only from the provider it was handed: it
    never rotates the pool, never retries, and sends every read of its pool
    type even when one of them fails; for an unrecognized pool type it sends
    nothing. *)
Theorem reserveTradeCheck_calls (env : Env) (a : ReserveArgs) (w : World) :
  let w' := snd (reserveTradeCheck env a w) in
  let p := rt_provider a in
  endpoint w' = endpoint w /\ rotations w' = rotations w /\ ticks w' = ticks w /\
  calls w' =
    (calls w ++
     (if String.eqb (poolType a) "V2" then
        [CallToken0 p (pairAddress a); CallToken1 p (pairAddress a);
         CallGetReserves p (pairAddress a)]
      else if String.eqb (poolType a) "V3" then
        [CallSlot0 p (poolAddress a); CallLiquidity p (poolAddress a);
         CallToken0 p (poolAddress a); CallToken1 p (poolAddress a)]
      else []))%list.
Proof.
  unfold reserveTradeCheck, Promise_all4, Promise_all3, Promise_all2.
  run_reads.
  destruct (String.eqb (poolType a) "V2").
  - destruct (rpc_token0 env (rt_provider a) (pairAddress a));
      destruct (rpc_token1 env (rt_provider a) (pairAddress a));
      destruct (rpc_getReserves env (rt_provider a) (pairAddress a)) as [[[? ?] ?]|];
      simpl;
      try destruct (tokenIn a); simpl;
      try destruct (BigInt (desiredAmount a)); simpl;
      rewrite <- ?app_assoc; repeat split.
  - destruct (String.eqb (poolType a) "V3").
    + destruct (rpc_slot0 env (rt_provider a) (poolAddress a));
        destruct (rpc_liquidity env (rt_provider a) (poolAddress a));
        destruct (rpc_token0 env (rt_provider a) (poolAddress a));
        destruct (rpc_token1 env (rt_provider a) (poolAddress a));
        simpl;
        try destruct (BigInt (desiredAmount a)); simpl;
        rewrite <- ?app_assoc; repeat split.
    + simpl. rewrite app_nil_r. repeat split.
Qed.

(* ===================================================================== *)
(** ** The liquidity guards on endpoints that agree *)
(* ===================================================================== *)

(** A guarded balance read on endpoints that all give the same answer. *)
Lemma balance_read_agreed (env : Env) (label token holder : string)
    (bal : option Z) (w : World) :
  (forall p, rpc_balanceOf env p token holder = bal) ->
  exists w',
    catch_
      (readCall env label
         (fun p =>
            b <- remote (CallBalanceOf p token holder)
                   (rpc_balanceOf env p token holder) ;;
            ret (Some b)))
      (fun _ => ret None) w = (Ok bal, w').
Proof.
  intros Hbal. unfold readCall. run_reads. rewrite !Hbal.
  destruct bal eqn:Eb; simpl; rewrite ?Hbal; simpl; eexists; reflexivity.
Qed.

Lemma chooseFallbackToken_cons (env : Env) (holder t : string) (rest : list string)
    (minAmt : Z) :
  chooseFallbackToken env holder (t :: rest) minAmt =
  (res <- catch_
            (readCall env ("erc20.balanceOf:" ++ t)
               (fun p =>
                  b <- remote (CallBalanceOf p t holder)
                         (rpc_balanceOf env p t holder) ;;
                  ret (Some b)))
            (fun _ => ret None) ;;
   match res with
   | Some b =>
       if negb (b =? 0) && (minAmt <? b) then ret (FallbackFound t b)
       else chooseFallbackToken env holder rest minAmt
   | None => chooseFallbackToken env holder rest minAmt
   end).
Proof. reflexivity. Qed.

(** X14. When the endpoints agree on the balances of the wallet,
    [chooseFallbackToken] returns the first token of the list whose balance
    is not zero and exceeds [minAmt], with that balance, and reports none
    exactly when no token of the list has such a balance. A zero balance is
    never chosen, even for a negative [minAmt]. *)
Theorem chooseFallbackToken_first (env : Env) (holder : string)
    (bal : string -> option Z) (minAmt : Z) (tokens : list string) (w : World) :
  (forall p t, rpc_balanceOf env p t holder = bal t) ->
  match fst (chooseFallbackToken env holder tokens minAmt w) with
  | Ok (FallbackFound t b) =>
      bal t = Some b /\ b <> 0 /\ minAmt < b /\
      exists before after,
        tokens = (before ++ t :: after)%list /\
        forall u, In u before -> ~ funded bal minAmt u
  | Ok FallbackNone => forall u, In u tokens -> ~ funded bal minAmt u
  | Throw _ => False
  end.
Proof.
  intros Hbal. revert w. induction tokens as [|t rest IH]; intros w.
  - simpl. intros u [].
  - rewrite chooseFallbackToken_cons. unfold bind at 1.
    destruct (balance_read_agreed env ("erc20.balanceOf:" ++ t) t holder (bal t) w
                (fun p => Hbal p t)) as (w1 & H1).
    rewrite H1.
    assert (Hskip : ~ funded bal minAmt t ->
              match fst (chooseFallbackToken env holder rest minAmt w1) with
              | Ok (FallbackFound t0 b) =>
                  bal t0 = Some b /\ b <> 0 /\ minAmt < b /\
                  exists before after,
                    (t :: rest = before ++ t0 :: after)%list /\
                    forall u, In u before -> ~ funded bal minAmt u
              | Ok FallbackNone => forall u, In u (t :: rest) -> ~ funded bal minAmt u
              | Throw _ => False
              end).
    { intros Hno. specialize (IH w1).
      destruct (fst (chooseFallbackToken env holder rest minAmt w1)) as [[t0 b|]|e];
        [| |exact IH].
      - destruct IH as (Hb & Hz & Hm & before & after & Heq & Hpre).
        repeat split; auto. exists (t :: before), after. split.
        + rewrite Heq. reflexivity.
        + intros u [Hu|Hu]; [subst; exact Hno | apply Hpre; exact Hu].
      - intros u [Hu|Hu]; [subst; exact Hno | apply IH; exact Hu]. }
    destruct (bal t) as [b|] eqn:Eb.
    + destruct (negb (b =? 0) && (minAmt <? b)) eqn:Eq.
      * apply andb_true_iff in Eq as [Ez Em].
        apply negb_true_iff, Z.eqb_neq in Ez. apply Z.ltb_lt in Em.
        simpl. repeat split; auto. exists [], rest. split; [reflexivity|].
        intros u [].
      * apply Hskip. intros (b' & Hb' & Hz & Hm). rewrite Eb in Hb'.
        inversion Hb'; subst.
        apply andb_false_iff in Eq as [Eq|Eq].
        -- apply negb_false_iff, Z.eqb_eq in Eq. contradiction.
        -- apply Z.ltb_ge in Eq. lia.
    + apply Hskip. intros (b' & Hb' & _). rewrite Eb in Hb'. discriminate.
Qed.

(** The statement above for a wallet holding nothing of the first token and
    1000 of the second. *)
Lemma chooseFallbackToken_first_witness :
  match fst (chooseFallbackToken
               (with_fee_data None
                  {| clock := clock sample_env;
                     next_endpoint := next_endpoint sample_env;
                     rpc_getFeeData := rpc_getFeeData sample_env;
                     rpc_estimateGas := rpc_estimateGas sample_env;
                     rpc_getBalance := rpc_getBalance sample_env;
                     rpc_balanceOf := fun _ t _ =>
                       if String.eqb t "0xempty" then Some 0 else Some 1000;
                     rpc_decimals := rpc_decimals sample_env;
                     rpc_latestRoundData := rpc_latestRoundData sample_env;
                     rpc_token0 := rpc_token0 sample_env;
                     rpc_token1 := rpc_token1 sample_env;
                     rpc_getReserves := rpc_getReserves sample_env;
                     rpc_slot0 := rpc_slot0 sample_env;
                     rpc_liquidity := rpc_liquidity sample_env;
                     formatUnits := formatUnits sample_env |})
               "0xwallet" ["0xempty"; "0xfull"] (-1) fresh_world) with
  | Ok (FallbackFound t b) =>
      (if String.eqb t "0xempty" then Some 0 else Some 1000) = Some b /\
      b <> 0 /\ -1 < b /\
      exists before after,
        ["0xempty"; "0xfull"] = (before ++ t :: after)%list /\
        forall u, In u before ->
                  ~ funded (fun t => if String.eqb t "0xempty" then Some 0 else Some 1000)
                      (-1) u
  | Ok FallbackNone =>
      forall u, In u ["0xempty"; "0xfull"] ->
                ~ funded (fun t => if String.eqb t "0xempty" then Some 0 else Some 1000)
                    (-1) u
  | Throw _ => False
  end.
Proof.
  apply (chooseFallbackToken_first _ "0xwallet"
           (fun t => if String.eqb t "0xempty" then Some 0 else Some 1000)
           (-1) ["0xempty"; "0xfull"] fresh_world).
  intros p t. reflexivity.
Defined.

Lemma checkBalance_agreed (env : Env) (bal : string -> string -> option Z)
    (c : FlashCandidate) (w : World) :
  (forall p t a, rpc_balanceOf env p t a = bal t a) ->
  exists w',
    checkBalance env (fc_token c) (fc_addr c) (fc_needed c) w
    = (Ok (liquid bal c), w').
Proof.
  intros Hbal. unfold checkBalance, readCall, liquid. run_reads. rewrite !Hbal.
  destruct (bal (fc_token c) (fc_addr c)) eqn:Eb; simpl;
    rewrite ?Hbal, ?Eb; simpl; [|eexists; reflexivity].
  destruct (BigInt (fc_needed c)) eqn:En; simpl;
    rewrite ?Hbal, ?Eb, ?En; simpl; rewrite ?En; eexists; reflexivity.
Qed.

Lemma firstWithBalance_agreed (env : Env) (bal : string -> string -> option Z)
    (cs : list FlashCandidate) :
  (forall p t a, rpc_balanceOf env p t a = bal t a) ->
  forall w, exists w',
    firstWithBalance env cs w = (Ok (existsb (liquid bal) cs), w').
Proof.
  intros Hbal. induction cs as [|c rest IH]; intros w.
  - simpl. unfold ret. eauto.
  - change (firstWithBalance env (c :: rest))
      with (b <- checkBalance env (fc_token c) (fc_addr c) (fc_needed c) ;;
            if (b : bool) then ret true else firstWithBalance env rest).
    unfold bind at 1.
    destruct (checkBalance_agreed env bal c w Hbal) as (w1 & H1). rewrite H1.
    simpl. destruct (liquid bal c); simpl; [unfold ret; eauto | apply IH].
Qed.

(** X15. When the endpoints agree on the balances and a lending source is
    switched on, [isFlashLoanAvailable] passes exactly when a source that is
    switched on has a candidate of its type whose balance covers the amount
    needed; candidates of a source that is off, or of another type, count for
    nothing, and both sources are reported either way. *)
Theorem isFlashLoanAvailable_sources (env : Env) (cfg : Config)
    (bal : string -> string -> option Z) (candidates : list FlashCandidate)
    (w : World) :
  (forall p t a, rpc_balanceOf env p t a = bal t a) ->
  AAVE_LOAN cfg || BAL_LOAN cfg = true ->
  let source on kind :=
    on && existsb (liquid bal)
            (List.filter (fun c => String.eqb (fc_type c) kind) candidates) in
  let aave := source (AAVE_LOAN cfg) "aave" in
  let balancer := source (BAL_LOAN cfg) "balancer" in
  fst (isFlashLoanAvailable env cfg candidates w) =
  Ok (if aave || balancer then FlashAccepted aave balancer
      else FlashRejected "noLiquidity" (Some (aave, balancer))) /\
  (aave = true <->
   AAVE_LOAN cfg = true /\
   exists c, In c candidates /\ fc_type c = "aave" /\ liquid bal c = true) /\
  (balancer = true <->
   BAL_LOAN cfg = true /\
   exists c, In c candidates /\ fc_type c = "balancer" /\ liquid bal c = true).
Proof.
  intros Hbal Hon source aave balancer.
  assert (Hsrc : forall on kind,
            source on kind = true <->
            on = true /\
            exists c, In c candidates /\ fc_type c = kind /\ liquid bal c = true).
  { intros on kind. unfold source. rewrite andb_true_iff, existsb_exists.
    split; intros [H1 (c & H2 & H3)]; (split; [exact H1|]); exists c.
    - apply filter_In in H2 as [H2 H4]. apply String.eqb_eq in H4. auto.
    - destruct H3 as [H3 H4]. split; [|exact H4].
      apply filter_In. split; [exact H2 | apply String.eqb_eq; exact H3]. }
  split; [|split; apply Hsrc].
  unfold isFlashLoanAvailable.
  destruct (negb (AAVE_LOAN cfg) && negb (BAL_LOAN cfg)) eqn:Eoff.
  { destruct (AAVE_LOAN cfg), (BAL_LOAN cfg); discriminate. }
  unfold bind at 1.
  assert (Ha : exists w1,
             (if AAVE_LOAN cfg
              then firstWithBalance env
                     (List.filter (fun c => String.eqb (fc_type c) "aave") candidates)
              else ret false) w = (Ok aave, w1)).
  { unfold aave, source. destruct (AAVE_LOAN cfg); simpl.
    - apply firstWithBalance_agreed. exact Hbal.
    - unfold ret. eauto. }
  destruct Ha as (w1 & Ha). rewrite Ha. unfold bind at 1.
  assert (Hb : exists w2,
             (if BAL_LOAN cfg
              then firstWithBalance env
                     (List.filter (fun c => String.eqb (fc_type c) "balancer") candidates)
              else ret false) w1 = (Ok balancer, w2)).
  { unfold balancer, source. destruct (BAL_LOAN cfg); simpl.
    - apply firstWithBalance_agreed. exact Hbal.
    - unfold ret. eauto. }
  destruct Hb as (w2 & Hb). rewrite Hb.
  destruct (aave || balancer); reflexivity.
Qed.

(** The statement above with Aave switched on and a balance of 1000
    everywhere: the first Aave candidate asks for too much, the second is
    covered. *)
Lemma isFlashLoanAvailable_sources_witness :
  fst (isFlashLoanAvailable sample_env lending_config sample_candidates fresh_world)
  = Ok (FlashAccepted true false).
Proof.
  exact (proj1 (isFlashLoanAvailable_sources sample_env lending_config
                  (fun _ _ => Some 1000) sample_candidates fresh_world
                  (fun _ _ _ => eq_refl) eq_refl)).
Defined.

(* ===================================================================== *)
(** ** Pool state *)
(* ===================================================================== *)

(** Unfolds a guarded pool read down to the replies of the endpoints. *)
Ltac run_pool_read :=
  cbv beta iota delta
    [getV2Reserves getV3State Promise_all4 Promise_all3 Promise_all2 Date_now
       catch_ bind ret throw lift gets modify remote readCall readFailover
       rotateProvider getReadProvider];
  simpl.

(** X16. [getV2Reserves] never throws. A state it returns is a snapshot of
    one endpoint, the active one or the one after a rotation: both tokens and
    the reserves are the replies of that same endpoint, stamped with the
    clock at the time of the call. It returns [null] exactly when a read
    fails on the active endpoint and a read fails on the next one. *)
Theorem getV2Reserves_snapshot (env : Env) (pair : string) (w : World) :
  match fst (getV2Reserves env pair w) with
  | Ok (Some (V2Reserves t0 t1 r0 r1 tsLast ts)) =>
      ts = clock env (ticks w) /\
      exists p,
        (p = endpoint w \/
         (p = next_endpoint env (endpoint w) /\ v2_read_fails env (endpoint w) pair)) /\
        rpc_token0 env p pair = Some t0 /\
        rpc_token1 env p pair = Some t1 /\
        rpc_getReserves env p pair = Some (r0, r1, tsLast)
  | Ok (Some (V3State _ _ _ _ _)) => False
  | Ok None =>
      v2_read_fails env (endpoint w) pair /\
      v2_read_fails env (next_endpoint env (endpoint w)) pair
  | Throw _ => False
  end.
Proof.
  unfold v2_read_fails. run_pool_read.
  destruct (rpc_token0 env (endpoint w) pair) eqn:A1;
    destruct (rpc_token1 env (endpoint w) pair) eqn:A2;
    destruct (rpc_getReserves env (endpoint w) pair) as [[[? ?] ?]|] eqn:A3; simpl;
    try (split; [reflexivity|]; exists (endpoint w); auto);
    destruct (rpc_token0 env (next_endpoint env (endpoint w)) pair) eqn:B1;
    destruct (rpc_token1 env (next_endpoint env (endpoint w)) pair) eqn:B2;
    destruct (rpc_getReserves env (next_endpoint env (endpoint w)) pair)
      as [[[? ?] ?]|] eqn:B3; simpl;
    try (split; [reflexivity|]; exists (next_endpoint env (endpoint w));
         repeat split; auto; right; split; auto);
    auto.
Qed.

(** X17. [getV3State] never throws. A state it returns is a snapshot of one
    endpoint, the active one or the one after a rotation: price, liquidity
    and both tokens are the replies of that same endpoint, a [slot0] without
    a price counting as [0n]. It returns [null] exactly when a read fails on
    the active endpoint and a read fails on the next one. *)
Theorem getV3State_snapshot (env : Env) (pool : string) (w : World) :
  match fst (getV3State env pool w) with
  | Ok (Some (V3State t0 t1 sqrtPriceX96 liquidity ts)) =>
      ts = clock env (ticks w) /\
      exists p slot0,
        (p = endpoint w \/
         (p = next_endpoint env (endpoint w) /\ v3_read_fails env (endpoint w) pool)) /\
        rpc_slot0 env p pool = Some slot0 /\ sqrtPriceX96 = default 0 slot0 /\
        rpc_liquidity env p pool = Some liquidity /\
        rpc_token0 env p pool = Some t0 /\
        rpc_token1 env p pool = Some t1
  | Ok (Some (V2Reserves _ _ _ _ _ _)) => False
  | Ok None =>
      v3_read_fails env (endpoint w) pool /\
      v3_read_fails env (next_endpoint env (endpoint w)) pool
  | Throw _ => False
  end.
Proof.
  unfold v3_read_fails. run_pool_read.
  destruct (rpc_slot0 env (endpoint w) pool) eqn:A0;
    destruct (rpc_liquidity env (endpoint w) pool) eqn:A1;
    destruct (rpc_token0 env (endpoint w) pool) eqn:A2;
    destruct (rpc_token1 env (endpoint w) pool) eqn:A3; simpl;
    try (split; [reflexivity|]; eexists (endpoint w), _; repeat split; eauto; fail);
    destruct (rpc_slot0 env (next_endpoint env (endpoint w)) pool) eqn:B0;
    destruct (rpc_liquidity env (next_endpoint env (endpoint w)) pool) eqn:B1;
    destruct (rpc_token0 env (next_endpoint env (endpoint w)) pool) eqn:B2;
    destruct (rpc_token1 env (next_endpoint env (endpoint w)) pool) eqn:B3; simpl;
    try (split; [reflexivity|];
         eexists (next_endpoint env (endpoint w)), _;
         repeat split; eauto; right; split; auto 6; fail);
    auto 6.
Qed.

(* ===================================================================== *)
(** ** The oracle-derived profit guard *)
(* ===================================================================== *)

Lemma fetchPrice_total (env : Env) (cfg : Config) (p : nat)
    (feedMap : gmap string string) (token : option string) (w : World) :
  exists r w', fetchPrice env cfg p feedMap token w = (Ok r, w').
Proof.
  unfold fetchPrice. destruct (negb (truthy (feed_of feedMap token))).
  - unfold ret. eauto.
  - apply catch_ret_total.
Qed.

Lemma fetchPrice_no_feed (env : Env) (cfg : Config) (p : nat)
    (feedMap : gmap string string) (token : option string) (w : World) :
  truthy (feed_of feedMap token) = false ->
  fetchPrice env cfg p feedMap token w = (Ok None, w).
Proof. intros H. unfold fetchPrice. rewrite H. reflexivity. Qed.

Lemma fetchTokenDecimals_total (env : Env) (p : nat) (token : option string)
    (w : World) :
  exists d w', fetchTokenDecimals env p token w = (Ok d, w').
Proof.
  unfold fetchTokenDecimals. destruct (negb (truthy token) || _).
  - unfold ret. eauto.
  - apply catch_ret_total.
Qed.

(** X18. The oracle-derived profit guard never throws. When the feed map has
    no feed (or an empty one) for the profit token or for the notional
    token, it fails with ['missingOrStaleFeed'], and no price is asked for a
    token without a feed. *)
Theorem Chainlink_missing_feed (env : Env) (cfg : Config) (p : nat)
    (profitToken : option string) (profitAmountWei : option Z)
    (notionalToken : option string) (notionalAmountWei : option Z)
    (feedMap : gmap string string) (w : World) :
  (exists v w',
     meetsProfitThresholdUSD_Chainlink env cfg p profitToken profitAmountWei
       notionalToken notionalAmountWei feedMap w = (Ok v, w')) /\
  (truthy (feed_of feedMap profitToken) = false \/
   truthy (feed_of feedMap notionalToken) = false ->
   exists w',
     meetsProfitThresholdUSD_Chainlink env cfg p profitToken profitAmountWei
       notionalToken notionalAmountWei feedMap w
     = (Ok (ProfitRejected "missingOrStaleFeed"), w')) /\
  (forall token w0,
     truthy (feed_of feedMap token) = false ->
     fetchPrice env cfg p feedMap token w0 = (Ok None, w0)).
Proof.
  split; [apply catch_ret_total|]. split; [|intros; apply fetchPrice_no_feed; assumption].
  intros Hfeed.
  unfold meetsProfitThresholdUSD_Chainlink, Promise_all4, Promise_all3, Promise_all2,
    catch_.
  unfold bind at 1.
  destruct (fetchPrice_total env cfg p feedMap profitToken w) as (r1 & w1 & H1).
  rewrite H1.
  destruct (fetchPrice_total env cfg p feedMap notionalToken w1) as (r2 & w2 & H2).
  rewrite H2.
  destruct (fetchTokenDecimals_total env p profitToken w2) as (d1 & w3 & H3).
  rewrite H3.
  destruct (fetchTokenDecimals_total env p notionalToken w3) as (d2 & w4 & H4).
  rewrite H4.
  destruct Hfeed as [Hf | Hf].
  - rewrite (fetchPrice_no_feed _ _ _ _ _ _ Hf) in H1. inversion H1; subst.
    unfold ret. eauto.
  - rewrite (fetchPrice_no_feed _ _ _ _ _ _ Hf) in H2. inversion H2; subst.
    destruct r1; unfold ret; eauto.
Qed.



(* ===================================================================== *)
(** ** The MEV queue over time *)
(* ===================================================================== *)

(** The verdict and the world after reading a queue that parses to an
    array. *)
Lemma isMEVRisk_array (env : Env) (cfg : Config) (w : World) (q : list MevEntry) :
  mev_file w = FileContent (Parses (JsonArray q)) ->
  let now := clock env (ticks w) in
  let keep := List.filter (in_window cfg now) q in
  exists w',
    isMEVRisk env cfg w = (Ok {| risk := existsb (in_window cfg now) q |}, w') /\
    ticks w' = S (ticks w) /\
    (mev_file w' = mev_file w \/ mev_file w' = FileContent (Parses (JsonArray keep))).
Proof.
  intros Ef now keep.
  unfold isMEVRisk, catch_, bind, fs_existsSync, fs_readFileSync, gets, lift, ret.
  rewrite Ef; simpl; rewrite ?Ef; simpl.
  rewrite scanQueue_filter. fold now keep.
  destruct (List.length keep =? List.length q)%nat; simpl.
  - eexists. split; [reflexivity|]. simpl. auto.
  - unfold fs_writeFileSync. simpl.
    destruct (mev_writable w); simpl; eexists; (split; [reflexivity|]); simpl; auto.
Qed.

(** Reading anything but an array leaves the world as it was. *)
Lemma isMEVRisk_no_queue (env : Env) (cfg : Config) (w : World) :
  (forall q, mev_file w <> FileContent (Parses (JsonArray q))) ->
  isMEVRisk env cfg w =
    (Ok {| risk := match mev_file w with
                   | FileAbsent | FileContent (Parses _) => false
                   | _ => true
                   end |}, w).
Proof.
  intros Hq.
  unfold isMEVRisk, catch_, bind, fs_existsSync, fs_readFileSync, gets, lift, ret.
  destruct (mev_file w) as [| | [|[|q]]] eqn:Ef; simpl; rewrite ?Ef; simpl;
    try reflexivity.
  exfalso. exact (Hq q eq_refl).
Qed.

(** X20. Without new entries the risk can only fade: when the clock does not
    go back between two readings of the queue, a second [isMEVRisk] right
    after a first one reports a risk only if the first one did, whether or
    not the first one pruned the file. *)
Theorem isMEVRisk_decay (env : Env) (cfg : Config) (w : World) :
  clock env (ticks w) <= clock env (S (ticks w)) ->
  let first := isMEVRisk env cfg w in
  let second := isMEVRisk env cfg (snd first) in
  fst second = Ok {| risk := true |} -> fst first = Ok {| risk := true |}.
Proof.
  intros Hclock first second.
  destruct (mev_file w) as [| | [|[|q]]] eqn:Ef.
  1-4: subst second first;
       rewrite (isMEVRisk_no_queue env cfg w) by (rewrite Ef; discriminate);
       simpl;
       rewrite (isMEVRisk_no_queue env cfg w) by (rewrite Ef; discriminate);
       simpl; auto.
  destruct (isMEVRisk_array env cfg w q Ef) as (w1 & H1 & Ht & Hfile).
  subst second first. rewrite H1. simpl.
  set (now := clock env (ticks w)) in *.
  assert (Hq1 : exists q1, mev_file w1 = FileContent (Parses (JsonArray q1)) /\
                           forall e, In e q1 -> In e q).
  { destruct Hfile as [Hf|Hf].
    - exists q. rewrite Hf, Ef. auto.
    - eexists. split; [exact Hf|]. intros e He. apply filter_In in He. tauto. }
  destruct Hq1 as (q1 & Hf1 & Hsub).
  destruct (isMEVRisk_array env cfg w1 q1 Hf1) as (w2 & H2 & _ & _).
  rewrite H2. simpl. rewrite Ht.
  intros Hrisk. injection Hrisk as Hex. do 2 f_equal.
  apply existsb_exists in Hex as (e & He & Hwin).
  apply existsb_exists. exists e. split; [apply Hsub; exact He|].
  unfold in_window in *. apply Z.ltb_lt in Hwin. apply Z.ltb_lt. lia.
Qed.

(** The statement above on a queue holding one entry five seconds old: the
    second reading still reports the risk, so the first one did. *)
Lemma isMEVRisk_decay_witness :
  let w := set_mev_file
             (FileContent
                (Parses (JsonArray [{| timestamp := Some (1700000000000 - 5000);
                                       entry_rest := "tx" |}]))) fresh_world in
  fst (isMEVRisk sample_env default_config w) = Ok {| risk := true |}.
Proof.
  intros w. apply (isMEVRisk_decay sample_env default_config w).
  - vm_compute. discriminate.
  - vm_compute. reflexivity.
Defined.

(* ===================================================================== *)
(** ** Comma-separated settings *)
(* ===================================================================== *)

Lemma String_split_nonempty (sep : ascii) (s : string) : String_split sep s <> [].
Proof.
  induction s as [|c r IH]; simpl; [discriminate|].
  destruct (Ascii.eqb c sep); [discriminate|].
  destruct (String_split sep r); discriminate.
Qed.

Lemma String_split_pieces (sep : ascii) (s : string) :
  Forall (fun p => mentions sep p = false) (String_split sep s).
Proof.
  induction s as [|c r IH]; simpl.
  - constructor; [reflexivity|constructor].
  - destruct (Ascii.eqb c sep) eqn:E.
    + constructor; [reflexivity|exact IH].
    + destruct (String_split sep r) as [|h t]; inversion IH; subst;
        constructor; simpl; rewrite ?E; auto.
Qed.

Lemma trimStart_mentions (c : ascii) (s : string) :
  mentions c s = false -> mentions c (trimStart s) = false.
Proof.
  induction s as [|d r IH]; simpl; [auto|].
  intros H. apply orb_false_iff in H as [H1 H2].
  destruct (isWhiteSpace d); [auto|]. simpl. rewrite H1, H2. reflexivity.
Qed.

Lemma trimEnd_mentions (c : ascii) (s : string) :
  mentions c s = false -> mentions c (trimEnd s) = false.
Proof.
  induction s as [|d r IH]; simpl; [auto|].
  intros H. apply orb_false_iff in H as [H1 H2]. specialize (IH H2).
  destruct (trimEnd r) eqn:E.
  - destruct (isWhiteSpace d); simpl; rewrite ?H1; reflexivity.
  - simpl in *. rewrite H1. exact IH.
Qed.

Lemma trimEnd_cons (c : ascii) (r : string) :
  trimEnd (String c r) =
    match trimEnd r with
    | EmptyString => if isWhiteSpace c then EmptyString else String c EmptyString
    | r' => String c r'
    end.
Proof. reflexivity. Qed.

Lemma trimEnd_idempotent (s : string) : trimEnd (trimEnd s) = trimEnd s.
Proof.
  induction s as [|d r IH]; simpl; [reflexivity|].
  destruct (trimEnd r) as [|e r'] eqn:E.
  - destruct (isWhiteSpace d) eqn:W; simpl; rewrite ?W; reflexivity.
  - rewrite trimEnd_cons, IH. reflexivity.
Qed.

Lemma trimStart_head (s : string) :
  trimStart s = EmptyString \/
  exists c r, trimStart s = String c r /\ isWhiteSpace c = false.
Proof.
  induction s as [|d r IH]; simpl; [auto|].
  destruct (isWhiteSpace d) eqn:W; [exact IH|]. right. eauto.
Qed.

Lemma trimStart_trimEnd (s : string) :
  trimStart s = s -> trimStart (trimEnd s) = trimEnd s.
Proof.
  destruct s as [|d r]; simpl; [reflexivity|].
  destruct (isWhiteSpace d) eqn:W.
  - intros H. exfalso.
    destruct (trimStart_head r) as [E|(c & r' & E & Wc)]; rewrite E in H.
    + discriminate.
    + injection H as -> _. congruence.
  - intros _. destruct (trimEnd r); simpl; rewrite W; reflexivity.
Qed.

Lemma trimStart_idempotent (s : string) : trimStart (trimStart s) = trimStart s.
Proof.
  induction s as [|d r IH]; simpl; [reflexivity|].
  destruct (isWhiteSpace d) eqn:W; [exact IH|]. simpl. rewrite W. reflexivity.
Qed.

Lemma String_trim_idempotent (s : string) : String_trim (String_trim s) = String_trim s.
Proof.
  unfold String_trim.
  rewrite (trimStart_trimEnd (trimStart s)) by apply trimStart_idempotent.
  apply trimEnd_idempotent.
Qed.

Lemma Boolean_true (s : string) : Boolean s = true <-> s <> EmptyString.
Proof.
  unfold Boolean. destruct s; simpl; split; intros; congruence.
Qed.

(** Every entry of a parsed list is not empty, holds no comma and has no
    white space left at either end. *)
Lemma commaList_clean (s : string) : Forall clean (commaList s).
Proof.
  unfold commaList. apply Forall_forall. intros e He.
  apply filter_In in He as [He Hb]. apply in_map_iff in He as (p & <- & Hp).
  pose proof (String_split_pieces "," s) as Hpieces.
  rewrite Forall_forall in Hpieces. specialize (Hpieces p Hp).
  split; [apply Boolean_true; exact Hb|]. split.
  - unfold String_trim. apply trimEnd_mentions, trimStart_mentions, Hpieces.
  - apply String_trim_idempotent.
Qed.

(** X21. Whatever the environment holds, the token list of the flash-loan
    fallback and the endpoint list that [rpcConfig.js] lets through hold only
    entries usable as they stand (not empty, no comma, no white space at
    either end), and the endpoint list is never empty: a setting made of
    commas and blanks only stops the module instead. *)
Theorem settings_clean (setting : option string) :
  Forall clean (FLASH_FALLBACK_TOKENS_of setting) /\
  match Index.POLYGON_RPCS setting with
  | Some urls => urls <> [] /\ Forall clean urls
  | None => truthy setting = true /\ commaList (default EmptyString setting) = []
  end.
Proof.
  split; [apply commaList_clean|].
  unfold Index.POLYGON_RPCS. destruct (truthy setting).
  - pose proof (commaList_clean (default EmptyString setting)) as H.
    destruct (commaList (default EmptyString setting)); simpl; [auto|].
    split; [discriminate|exact H].
  - simpl. split; [discriminate|].
    repeat constructor; discriminate.
Qed.

Lemma String_split_single (sep : ascii) (e : string) :
  mentions sep e = false -> String_split sep e = [e].
Proof.
  induction e as [|c r IH]; simpl; [reflexivity|].
  intros H. apply orb_false_iff in H as [H1 H2].
  rewrite H1, (IH H2). reflexivity.
Qed.

Lemma String_split_app (sep : ascii) (e rest : string) :
  mentions sep e = false ->
  String_split sep (e ++ String sep rest) = e :: String_split sep rest.
Proof.
  induction e as [|c r IH]; simpl.
  - intros _. rewrite Ascii.eqb_refl. reflexivity.
  - intros H. apply orb_false_iff in H as [H1 H2].
    rewrite H1, (IH H2). reflexivity.
Qed.

Lemma String_split_concat (e : string) (l : list string) :
  Forall clean (e :: l) ->
  String_split "," (String.concat "," (e :: l)) = e :: l.
Proof.
  revert e. induction l as [|f l IH]; intros e H.
  - simpl. apply String_split_single. inversion H as [|? ? (_ & Hc & _) _]. exact Hc.
  - inversion H as [|? ? (_ & Hc & _) Hl]; subst.
    change (String.concat "," (e :: f :: l))
      with (e ++ String "," (String.concat "," (f :: l))).
    rewrite String_split_app by exact Hc. rewrite (IH f Hl). reflexivity.
Qed.

(** X22. Any list of clean entries can be configured: joined with commas and
    parsed again it comes back unchanged, in the same order. *)
Theorem commaList_concat (l : list string) :
  Forall clean l -> commaList (String.concat "," l) = l.
Proof.
  intros H. destruct l as [|e l]; [reflexivity|].
  unfold commaList. rewrite String_split_concat by exact H.
  induction H as [|x xs (Hne & _ & Ht) _ IH]; [reflexivity|].
  simpl. rewrite Ht. apply Boolean_true in Hne. rewrite Hne. f_equal. exact IH.
Qed.

(** The statement above on two endpoints. *)
Lemma commaList_concat_witness :
  commaList (String.concat "," ["https://rpc1"; "https://rpc2"])
  = ["https://rpc1"; "https://rpc2"].
Proof.
  apply (commaList_concat ["https://rpc1"; "https://rpc2"]).
  repeat constructor; discriminate.
Defined.

(* ===================================================================== *)
(** ** Start-up: probing the endpoints *)
(* ===================================================================== *)

Lemma attempts_trace_step (url : string) (i n : nat) :
  (1 <= n)%nat ->
  attempts_trace url i (S n)
  = Index.Probe url :: Index.Sleep (400 * Z.of_nat i) :: attempts_trace url (S i) n.
Proof. destruct n; [lia|reflexivity]. Qed.

Lemma slept_app (t u : list Index.Event) : slept (t ++ u) = slept t + slept u.
Proof.
  unfold slept. induction t as [|[v|ms] t IH]; simpl; rewrite ?IH; lia.
Qed.

Lemma probed_app (t u : list Index.Event) : probed (t ++ u) = (probed t ++ probed u)%list.
Proof. unfold probed. apply flat_map_app. Qed.

Lemma slept_attempts_trace (url : string) (n i : nat) :
  slept (attempts_trace url i n)
  = 200 * (Z.of_nat n - 1) * (2 * Z.of_nat i + Z.of_nat n - 2) * Z.of_nat (Nat.min n 1).
Proof.
  revert i. induction n as [|n IH]; intros i; [simpl; lia|].
  destruct n as [|n]; [simpl; lia|].
  rewrite attempts_trace_step by lia.
  change (slept (Index.Probe url :: Index.Sleep (400 * Z.of_nat i)
                   :: attempts_trace url (S i) (S n)))
    with (400 * Z.of_nat i + slept (attempts_trace url (S i) (S n))).
  rewrite IH. simpl Nat.min. nia.
Qed.

Lemma probed_attempts_trace (url : string) (n i : nat) :
  probed (attempts_trace url i n) = repeat url n.
Proof.
  revert i. induction n as [|n IH]; intros i; [reflexivity|].
  destruct n as [|n]; [reflexivity|].
  rewrite attempts_trace_step by lia.
  change (probed (Index.Probe url :: Index.Sleep (400 * Z.of_nat i)
                    :: attempts_trace url (S i) (S n)))
    with (url :: probed (attempts_trace url (S i) (S n))).
  rewrite IH. reflexivity.
Qed.

(** The loop of [probeRpc] from any of its turns. *)
Lemma probe_loop_trace (net : Index.Net) (url : string) (attempts : nat) :
  forall (todo i : nat) (t : list Index.Event),
    (i + todo = S attempts)%nat ->
    exists n,
      (n <= todo)%nat /\ ((1 <= todo)%nat -> (1 <= n)%nat) /\
      snd (Index.probe_loop net url attempts todo i t)
      = (t ++ attempts_trace url i n)%list /\
      if fst (Index.probe_loop net url attempts todo i t)
      then (1 <= n)%nat /\
           Index.getBlockNumber net url
             (List.length (t ++ attempts_trace url i n) - 1) <> None
      else n = todo.
Proof.
  induction todo as [|todo IH]; intros i t Hi.
  - exists 0%nat. simpl. rewrite app_nil_r. repeat split; auto; lia.
  - simpl. destruct (Index.getBlockNumber net url (List.length t)) as [bn|] eqn:E.
    + exists 1%nat. simpl. repeat split; try lia.
      rewrite length_app. simpl.
      replace (List.length t + 1 - 1)%nat with (List.length t) by lia. congruence.
    + destruct todo as [|todo].
      * exists 1%nat. simpl. replace (i <? attempts)%nat with false
          by (symmetry; apply Nat.ltb_ge; lia).
        repeat split; auto.
      * replace (i <? attempts)%nat with true by (symmetry; apply Nat.ltb_lt; lia).
        destruct (IH (S i) ((t ++ [Index.Probe url]) ++ [Index.Sleep (400 * Z.of_nat i)])%list)
          as (n & Hn & H1 & Ht & Hok); [lia|].
        specialize (H1 ltac:(lia)).
        exists (S n). rewrite attempts_trace_step by exact H1.
        replace (t ++ Index.Probe url :: Index.Sleep (400 * Z.of_nat i)
                   :: attempts_trace url (S i) n)%list
          with (((t ++ [Index.Probe url]) ++ [Index.Sleep (400 * Z.of_nat i)])
                  ++ attempts_trace url (S i) n)%list
          by (rewrite <- !app_assoc; reflexivity).
        split; [lia|]. split; [lia|]. split; [exact Ht|].
        destruct (fst (Index.probe_loop net url attempts (S todo) (S i) _));
          [split; [lia|apply Hok] | lia].
Qed.

(** X23. [probeRpc] asks the endpoint at most [attempts] times, stops at the
    first answer, pauses [400 * i] ms after the [i]-th failure and never
    after the last one: having sent [n] requests it has waited
    [200 * n * (n - 1)] ms in all. It returns [true] only when its last
    request was answered, and [false] only after [attempts] requests. *)
Theorem probeRpc_trace (net : Index.Net) (url : string) (attempts : nat)
    (t : list Index.Event) :
  let (ok, t') := Index.probeRpc net url attempts t in
  exists n,
    (n <= attempts)%nat /\
    t' = (t ++ attempts_trace url 1 n)%list /\
    probed t' = (probed t ++ repeat url n)%list /\
    slept t' = slept t + 200 * Z.of_nat n * (Z.of_nat n - 1) /\
    if ok
    then (1 <= n)%nat /\ Index.getBlockNumber net url (List.length t' - 1) <> None
    else n = attempts.
Proof.
  unfold Index.probeRpc.
  destruct (probe_loop_trace net url attempts attempts 1 t) as (n & Hn & H1 & Ht & Hok);
    [lia|].
  destruct (Index.probe_loop net url attempts attempts 1 t) as [ok t'].
  simpl in *. subst t'. exists n. split; [exact Hn|]. split; [reflexivity|].
  split; [rewrite probed_app, probed_attempts_trace; reflexivity|].
  split.
  - rewrite slept_app, slept_attempts_trace. destruct n; simpl Nat.min; nia.
  - exact Hok.
Qed.

(** X24. [pickWorkingRpc] goes through the list in order: the endpoint it
    returns is in the list, every endpoint before it has been asked three
    times in vain (1200 ms of pauses each), the endpoints after it are never
    contacted, and its own last request was answered. It gives up only after
    three requests to every endpoint of the list. *)
Theorem pickWorkingRpc_order (net : Index.Net) (urls : list string)
    (t : list Index.Event) :
  match Index.pickWorkingRpc net urls t with
  | (Some url, t') =>
      exists before after n,
        urls = (before ++ url :: after)%list /\
        (1 <= n <= 3)%nat /\
        t' = (t ++ flat_map (fun u => attempts_trace u 1 3) before
                ++ attempts_trace url 1 n)%list /\
        Index.getBlockNumber net url (List.length t' - 1) <> None
  | (None, t') =>
      t' = (t ++ flat_map (fun u => attempts_trace u 1 3) urls)%list
  end.
Proof.
  revert t. induction urls as [|u urls IH]; intros t.
  - simpl. rewrite app_nil_r. reflexivity.
  - simpl. unfold Index.probeRpc.
    destruct (probe_loop_trace net u 3 3 1 t) as (n & Hn & _ & Ht & Hok); [lia|].
    destruct (Index.probe_loop net u 3 3 1 t) as [ok t1]. simpl in Ht, Hok.
    destruct ok.
    + exists [], urls, n. simpl. subst t1. destruct Hok as [H1 Hok]. auto with lia.
    + subst n. specialize (IH t1).
      destruct (Index.pickWorkingRpc net urls t1) as [[url|] t'].
      * destruct IH as (before & after & n & -> & Hn' & -> & Hans).
        exists (u :: before), after, n. rewrite Ht in *.
        split; [reflexivity|]. split; [exact Hn'|]. split; [|exact Hans].
        simpl flat_map. rewrite <- !app_assoc. reflexivity.
      * rewrite IH, Ht. rewrite <- !app_assoc. reflexivity.
Qed.

(* ===================================================================== *)
(** ** The router validator *)
(* ===================================================================== *)

Lemma rotate_counts (chain : ValidateConfigs.Chain) (s : ValidateConfigs.State) :
  ValidateConfigs.rotations (ValidateConfigs.rotate chain s) = S (ValidateConfigs.rotations s) /\
  ValidateConfigs.pauses (ValidateConfigs.rotate chain s) = ValidateConfigs.pauses s.
Proof.
  unfold ValidateConfigs.rotate. destruct (ValidateConfigs.rotateProvider chain _ _); simpl; auto.
Qed.

(** The loop of [safeCall] from any of its turns. *)
Lemma safeCall_loop_budget {A} (chain : ValidateConfigs.Chain) (fn : ValidateConfigs.V A)
    (retries : nat) (delayMs : Z) :
  quiet fn ->
  forall (todo i : nat) (s : ValidateConfigs.State),
    (i + todo = retries)%nat ->
    exists r s' failures,
      ValidateConfigs.safeCall_loop chain fn retries delayMs todo i s = (Ok r, s') /\
      (failures <= todo)%nat /\
      ValidateConfigs.rotations s' = (ValidateConfigs.rotations s + failures)%nat /\
      ValidateConfigs.pauses s' =
        (ValidateConfigs.pauses s ++
           repeat delayMs (match r with
                           | Some _ => failures
                           | None => failures - 1
                           end))%list /\
      (r = None -> failures = todo).
Proof.
  intros Hq. induction todo as [|todo IH]; intros i s Hi.
  - exists None, s, 0%nat. simpl. rewrite app_nil_r.
    repeat split; auto.
  - simpl. destruct (Hq s) as [Hr Hp].
    destruct (fn s) as [[a|e] s1]; simpl in Hr, Hp.
    + exists (Some a), s1, 0%nat. simpl. rewrite app_nil_r, Nat.add_0_r.
      repeat split; auto; try lia; discriminate.
    + destruct (rotate_counts chain s1) as [Hr2 Hp2].
      destruct todo as [|todo].
      * replace (Z.of_nat i <? Z.of_nat retries - 1) with false
          by (symmetry; apply Z.ltb_ge; lia).
        exists None, (ValidateConfigs.rotate chain s1), 1%nat.
        split; [reflexivity|]. split; [lia|]. split; [lia|]. split; [|reflexivity].
        simpl repeat. rewrite app_nil_r. congruence.
      * replace (Z.of_nat i <? Z.of_nat retries - 1) with true
          by (symmetry; apply Z.ltb_lt; lia).
        destruct (IH (S i) (ValidateConfigs.pause delayMs (ValidateConfigs.rotate chain s1)))
          as (r & s' & f & Hrun & Hf & Hrot & Hpau & Hnone); [lia|].
        exists r, s', (S f). split; [exact Hrun|]. split; [lia|].
        simpl in Hrot, Hpau. split; [lia|]. split.
        -- rewrite Hpau, Hp2, Hp, <- app_assoc. f_equal.
           destruct r as [a|].
           ++ reflexivity.
           ++ specialize (Hnone eq_refl). subst f. simpl.
              rewrite Nat.sub_0_r. reflexivity.
        -- intros E. rewrite (Hnone E). reflexivity.
Qed.

(** X25. [safeCall] never throws and tries at most [retries] times. Each
    failed try is followed by one rotation of the endpoint, and by a pause
    of [delayMs] except after the last try: a call that succeeds after
    [failures] failures has paused [failures] times, a call that gives up
    ([null]) has failed [retries] times and paused once less. *)
Theorem safeCall_budget {A} (chain : ValidateConfigs.Chain) (fn : ValidateConfigs.V A)
    (retries : nat) (delayMs : Z) (s : ValidateConfigs.State) :
  quiet fn ->
  exists r s' failures,
    ValidateConfigs.safeCall chain fn retries delayMs s = (Ok r, s') /\
    (failures <= retries)%nat /\
    ValidateConfigs.rotations s' = (ValidateConfigs.rotations s + failures)%nat /\
    ValidateConfigs.pauses s' =
      (ValidateConfigs.pauses s ++
         repeat delayMs (match r with
                         | Some _ => failures
                         | None => failures - 1
                         end))%list /\
    (r = None -> failures = retries).
Proof.
  intros Hq. unfold ValidateConfigs.safeCall.
  apply safeCall_loop_budget; [exact Hq | reflexivity].
Qed.

Lemma factoryCall_quiet (chain : ValidateConfigs.Chain) (addr : string) :
  quiet (ValidateConfigs.factoryCall chain addr).
Proof. intros s. unfold ValidateConfigs.factoryCall. simpl. auto. Qed.

(** The statement above on a [factory()] call to the sample chain. *)
Lemma safeCall_budget_witness :
  exists r s' failures,
    ValidateConfigs.safeCall sample_chain (ValidateConfigs.factoryCall sample_chain sample_router) 3 1000
      validator_start = (Ok r, s') /\
    (failures <= 3)%nat /\
    ValidateConfigs.rotations s' = (ValidateConfigs.rotations validator_start + failures)%nat /\
    ValidateConfigs.pauses s' =
      (ValidateConfigs.pauses validator_start ++
         repeat 1000 (match r with
                      | Some _ => failures
                      | None => failures - 1
                      end))%list /\
    (r = None -> failures = 3%nat).
Proof.
  apply (safeCall_budget sample_chain (ValidateConfigs.factoryCall sample_chain sample_router)
           3 1000 validator_start).
  apply factoryCall_quiet.
Defined.

(* --------------------------------------------------------------------- *)
(** *** What the remote calls leave alone *)

Lemma same_books_refl (s : ValidateConfigs.State) : same_books s s.
Proof. repeat split. Qed.

Lemma same_books_trans (s1 s2 s3 : ValidateConfigs.State) :
  same_books s1 s2 -> same_books s2 s3 -> same_books s1 s3.
Proof.
  unfold same_books. intros (A1 & B1 & C1 & D1) (A2 & B2 & C2 & D2).
  repeat split; congruence.
Qed.

Lemma rotate_books (chain : ValidateConfigs.Chain) (s : ValidateConfigs.State) :
  same_books s (ValidateConfigs.rotate chain s).
Proof.
  unfold ValidateConfigs.rotate. destruct (ValidateConfigs.rotateProvider chain _ _); repeat split.
Qed.

Lemma safeCall_loop_books {A} (chain : ValidateConfigs.Chain) (fn : ValidateConfigs.V A)
    (retries : nat) (delayMs : Z) :
  (forall s, same_books s (snd (fn s))) ->
  forall (todo i : nat) (s : ValidateConfigs.State),
    exists r s',
      ValidateConfigs.safeCall_loop chain fn retries delayMs todo i s = (Ok r, s') /\
      same_books s s' /\
      (forall a, r = Some a -> exists s0 s1, fn s0 = (Ok a, s1)).
Proof.
  intros Hfn. induction todo as [|todo IH]; intros i s.
  - exists None, s. simpl. split; [reflexivity|]. split; [apply same_books_refl|].
    discriminate.
  - simpl. pose proof (Hfn s) as Hs. destruct (fn s) as [[a|e] s1] eqn:E; simpl in Hs.
    + exists (Some a), s1. split; [reflexivity|]. split; [exact Hs|].
      intros a' [= <-]. eauto.
    + match goal with
      | |- context [ValidateConfigs.safeCall_loop _ _ _ _ _ _ ?s3] =>
          destruct (IH (S i) s3) as (r & s' & Hrun & Hb & Hr);
          assert (Hs3 : same_books s1 s3)
      end.
      { destruct (_ <? _); [|apply rotate_books].
        eapply same_books_trans; [apply rotate_books|]. repeat split. }
      exists r, s'. split; [exact Hrun|]. split; [|exact Hr].
      eapply same_books_trans; [exact Hs|].
      eapply same_books_trans; [exact Hs3|exact Hb].
Qed.

Lemma factoryCall_books (chain : ValidateConfigs.Chain) (addr : string) (s : ValidateConfigs.State) :
  same_books s (snd (ValidateConfigs.factoryCall chain addr s)).
Proof. repeat split. Qed.

Lemma getCodeCall_books (chain : ValidateConfigs.Chain) (addr : string) (s : ValidateConfigs.State) :
  same_books s (snd (ValidateConfigs.getCodeCall chain addr s)).
Proof. repeat split. Qed.

(** [validateRouter] always answers and leaves the books alone. *)
Lemma validateRouter_books (chain : ValidateConfigs.Chain) (addr : string) (s : ValidateConfigs.State) :
  exists v s', ValidateConfigs.validateRouter chain addr s = (Ok v, s') /\ same_books s s'.
Proof.
  unfold ValidateConfigs.validateRouter.
  destruct (negb (ValidateConfigs.isAddr addr)).
  { eexists _, _. split; [reflexivity|apply same_books_refl]. }
  unfold ValidateConfigs.bind, ValidateConfigs.safeCall.
  destruct (safeCall_loop_books chain (ValidateConfigs.factoryCall chain addr) 3 1000
              (factoryCall_books chain addr) 3 0 s) as (f & s1 & -> & Hb1 & _).
  destruct (truthy f && ValidateConfigs.isAddr (default EmptyString f)).
  { eexists _, _. split; [reflexivity|exact Hb1]. }
  destruct (safeCall_loop_books chain (ValidateConfigs.getCodeCall chain addr) 3 1000
              (getCodeCall_books chain addr) 3 0 s1) as (c & s2 & -> & Hb2 & _).
  destruct (truthy c && _);
    (eexists _, _; split; [reflexivity|eapply same_books_trans; eauto]).
Qed.

(** [autoCorrectRouter] always answers, with the address it was given or
    with [null], and leaves the books alone. *)
Lemma autoCorrectRouter_books (chain : ValidateConfigs.Chain) (addr : string) (s : ValidateConfigs.State) :
  exists r s',
    ValidateConfigs.autoCorrectRouter chain addr s = (Ok r, s') /\
    (r = None \/ r = Some addr /\ ValidateConfigs.isAddr addr = true) /\
    same_books s s'.
Proof.
  unfold ValidateConfigs.autoCorrectRouter.
  destruct (ValidateConfigs.isAddr addr) eqn:Ea; simpl.
  2:{ eexists _, _. split; [reflexivity|]. split; [auto|apply same_books_refl]. }
  unfold ValidateConfigs.bind at 1. unfold ValidateConfigs.safeCall.
  destruct (safeCall_loop_books chain (ValidateConfigs.factoryCall chain addr) 3 1000
              (factoryCall_books chain addr) 3 0 s) as (f & s1 & -> & Hb1 & _).
  destruct (truthy f && ValidateConfigs.isAddr (default EmptyString f)).
  2:{ eexists _, _. split; [reflexivity|]. split; [auto|exact Hb1]. }
  unfold ValidateConfigs.bind.
  destruct (validateRouter_books chain addr s1) as (v & s2 & -> & Hb2).
  destruct (ValidateConfigs.ok v);
    (eexists _, _; split; [reflexivity|]; split;
     [auto|eapply same_books_trans; eauto]).
Qed.

(** X26. [autoCorrectRouter] never throws and never proposes another
    address: whatever the chain answers, it returns the address it was
    given, or [null]. *)
Theorem autoCorrectRouter_same (chain : ValidateConfigs.Chain) (addr : string) (s : ValidateConfigs.State) :
  exists r s',
    ValidateConfigs.autoCorrectRouter chain addr s = (Ok r, s') /\
    (r = None \/ r = Some addr).
Proof.
  destruct (autoCorrectRouter_books chain addr s) as (r & s' & H & [Hr|[Hr _]] & _);
    eauto.
Qed.

(* --------------------------------------------------------------------- *)
(** *** The alert throttle *)

Lemma same_books_orderly (s s' : ValidateConfigs.State) : same_books s s' -> orderly s s'.
Proof.
  intros (A & B & C & D). split; [split; assumption|].
  unfold throttled. rewrite A, B. auto.
Qed.

Lemma orderly_refl (s : ValidateConfigs.State) : orderly s s.
Proof. apply same_books_orderly, same_books_refl. Qed.

Lemma orderly_trans (s1 s2 s3 : ValidateConfigs.State) :
  orderly s1 s2 -> orderly s2 s3 -> orderly s1 s3.
Proof.
  unfold orderly, same_file. intros [[A1 B1] T1] [[A2 B2] T2].
  split; [split; congruence|]. intros H. apply T2, T1, H.
Qed.

Lemma alertOnce_orderly (chain : ValidateConfigs.Chain) (key : string) (s : ValidateConfigs.State) :
  exists s', ValidateConfigs.alertOnce chain key s = (Ok tt, s') /\ orderly s s'.
Proof.
  unfold ValidateConfigs.alertOnce. destruct (bool_decide (key ∈ ValidateConfigs.alertedKeys s)) eqn:E.
  - exists s. split; [reflexivity|apply orderly_refl].
  - eexists. split; [reflexivity|]. split; [split; reflexivity|].
    apply bool_decide_eq_false in E.
    intros [Hnd Hin]. unfold throttled. simpl. rewrite map_app. simpl. split.
    + apply List.NoDup_app; [exact Hnd | constructor; [intros []|constructor] |].
      intros k Hk [<-|[]]. apply E, Hin, Hk.
    + intros k Hk. apply in_app_iff in Hk as [Hk|[<-|[]]]; set_solver.
Qed.

(* --------------------------------------------------------------------- *)
(** *** One turn of [runOnce] *)



(** Whatever [routers] is, a turn leaves the file alone and keeps the alerts
    throttled, also when the assignment throws. *)
Lemma routerTurn_orderly (chain : ValidateConfigs.Chain) (name : string) (addr : ValidateConfigs.JsValue)
    (acc : ValidateConfigs.Routers * bool) (s : ValidateConfigs.State) :
  orderly s (snd (ValidateConfigs.routerTurn chain name addr acc s)).
Proof.
  destruct acc as [routers changed]. unfold ValidateConfigs.routerTurn.
  assert (Halert : forall key value (changed' : bool) s0,
    orderly s s0 ->
    orderly s
      (snd (ValidateConfigs.bind
              (ValidateConfigs.bind (ValidateConfigs.lift (ValidateConfigs.assign routers name value))
                 (fun r => ValidateConfigs.bind (ValidateConfigs.alertOnce chain key) (fun _ => ValidateConfigs.ret r)))
              (fun r => ValidateConfigs.ret (r, changed')) s0))).
  { intros key value changed' s0 H0. unfold ValidateConfigs.bind, ValidateConfigs.lift, ValidateConfigs.ret.
    destruct (ValidateConfigs.assign routers name value); [|exact H0].
    destruct (alertOnce_orderly chain key s0) as (s1 & -> & H1).
    eapply orderly_trans; eauto. }
  destruct (ValidateConfigs.getAddress chain addr) as [cs|].
  - unfold ValidateConfigs.bind at 1.
    destruct (validateRouter_books chain cs s) as (v & s1 & -> & Hb1).
    apply same_books_orderly in Hb1.
    destruct (ValidateConfigs.ok v); cbn [negb].
    + unfold ValidateConfigs.bind, ValidateConfigs.lift, ValidateConfigs.ret. destruct (ValidateConfigs.assign _ _ _); exact Hb1.
    + unfold ValidateConfigs.bind at 1.
      destruct (autoCorrectRouter_books chain cs s1) as (r & s2 & -> & _ & Hb2).
      apply same_books_orderly in Hb2.
      assert (H2 : orderly s s2) by (eapply orderly_trans; eauto).
      destruct (truthy r).
      * specialize (Halert ("router-corrected:" ++ name)
                      (default EmptyString r) true s2 H2).
        unfold ValidateConfigs.bind, ValidateConfigs.lift, ValidateConfigs.ret in *.
        destruct (ValidateConfigs.assign _ _ _); [|exact Halert].
        destruct (ValidateConfigs.alertOnce chain _ s2) as [[[]|] ?]; exact Halert.
      * specialize (Halert ("router:" ++ name) ZeroAddress true s2 H2).
        unfold ValidateConfigs.bind, ValidateConfigs.lift, ValidateConfigs.ret in *.
        destruct (ValidateConfigs.assign _ _ _); [|exact Halert].
        destruct (ValidateConfigs.alertOnce chain _ s2) as [[[]|] ?]; exact Halert.
  - specialize (Halert ("router-invalid:" ++ name) ZeroAddress true s
                  (orderly_refl s)).
    unfold ValidateConfigs.bind, ValidateConfigs.lift, ValidateConfigs.ret in *.
    destruct (ValidateConfigs.assign _ _ _); [|exact Halert].
    destruct (ValidateConfigs.alertOnce chain _ s) as [[[]|] ?]; exact Halert.
Qed.

Lemma routerLoop_orderly (chain : ValidateConfigs.Chain) (entries : list (string * ValidateConfigs.JsValue)) :
  forall (acc : ValidateConfigs.Routers * bool) (s : ValidateConfigs.State),
    orderly s (snd (ValidateConfigs.routerLoop chain entries acc s)).
Proof.
  induction entries as [|[name addr] rest IH]; intros acc s.
  - apply orderly_refl.
  - simpl. unfold ValidateConfigs.bind.
    pose proof (routerTurn_orderly chain name addr acc s) as H.
    destruct (ValidateConfigs.routerTurn chain name addr acc s) as [[acc'|e] s1]; simpl in H.
    + eapply orderly_trans; [exact H|apply IH].
    + exact H.
Qed.

Lemma writeJson_throttled (chain : ValidateConfigs.Chain) (data : ValidateConfigs.Routers) (s : ValidateConfigs.State) :
  throttled s -> throttled (snd (ValidateConfigs.writeJson chain data s)).
Proof.
  unfold ValidateConfigs.writeJson. simpl. destruct (ValidateConfigs.writeFileSync chain _); auto.
Qed.

Lemma runOnce_throttled (chain : ValidateConfigs.Chain) (s : ValidateConfigs.State) :
  throttled s -> throttled (snd (ValidateConfigs.runOnce chain s)).
Proof.
  intros H. unfold ValidateConfigs.runOnce, ValidateConfigs.readJson, ValidateConfigs.bind at 1.
  unfold ValidateConfigs.bind at 1. unfold ValidateConfigs.lift.
  destruct (ValidateConfigs.Object_entries _) as [entries|e]; [|exact H].
  unfold ValidateConfigs.bind.
  match goal with
  | |- context [ValidateConfigs.routerLoop chain entries ?acc s] =>
      pose proof (routerLoop_orderly chain entries acc s) as [_ Hl];
      destruct (ValidateConfigs.routerLoop chain entries acc s) as [[[routers changed]|e] s1]
  end; simpl in Hl; [|exact (Hl H)].
  simpl. destruct changed; [apply writeJson_throttled|]; exact (Hl H).
Qed.

(** X27. Over any number of rounds of [mainLoop], and whatever the chain,
    the file and the alert service do, no alert key is sent twice: a key is
    added to [alertedKeys] before its alert is sent, so an alert that could
    not be delivered is not sent again either. *)
Theorem mainLoop_alerts_once (chain : ValidateConfigs.Chain) (intervalMs : Z) (rounds : nat)
    (s : ValidateConfigs.State) :
  throttled s -> throttled (ValidateConfigs.mainLoop chain intervalMs rounds s).
Proof.
  revert s. induction rounds as [|rounds IH]; intros s H; [exact H|].
  simpl. apply IH. unfold ValidateConfigs.catch_.
  pose proof (runOnce_throttled chain s H) as H1.
  destruct (ValidateConfigs.runOnce chain s) as [[[]|e] s1]; exact H1.
Qed.

(** The statement above on three rounds from the sample state. *)
Lemma mainLoop_alerts_once_witness :
  throttled (ValidateConfigs.mainLoop sample_chain 30000 3 validator_start).
Proof.
  apply (mainLoop_alerts_once sample_chain 30000 3 validator_start).
  split; [constructor|intros key []].
Defined.

(* --------------------------------------------------------------------- *)
(** *** What [runOnce] writes *)



Lemma routerLoop_cons (chain : ValidateConfigs.Chain) (name : string) (addr : ValidateConfigs.JsValue)
    (rest : list (string * ValidateConfigs.JsValue)) (acc : ValidateConfigs.Routers * bool) :
  ValidateConfigs.routerLoop chain ((name, addr) :: rest) acc
  = ValidateConfigs.bind (ValidateConfigs.routerTurn chain name addr acc)
      (fun acc => ValidateConfigs.routerLoop chain rest acc).
Proof. reflexivity. Qed.




(* --------------------------------------------------------------------- *)
(** *** Routers in good health *)

Lemma safeCall_first {A} (chain : ValidateConfigs.Chain) (fn : ValidateConfigs.V A) (more : nat)
    (delayMs : Z) (s : ValidateConfigs.State) (a : A) (s1 : ValidateConfigs.State) :
  fn s = (Ok a, s1) ->
  ValidateConfigs.safeCall chain fn (S more) delayMs s = (Ok (Some a), s1).
Proof. intros H. unfold ValidateConfigs.safeCall. simpl. rewrite H. reflexivity. Qed.

Lemma validateRouter_healthy (chain : ValidateConfigs.Chain) (addr : string) (s : ValidateConfigs.State) :
  ValidateConfigs.isAddr addr = true -> answers_factory chain addr ->
  exists s',
    ValidateConfigs.validateRouter chain addr s = (Ok {| ValidateConfigs.ok := true; ValidateConfigs.reason := ValidateConfigs.v2 |}, s') /\
    same_books s s'.
Proof.
  intros Ha Hf. unfold ValidateConfigs.validateRouter. rewrite Ha. cbn [negb].
  destruct (Hf (ValidateConfigs.provider s) (ValidateConfigs.ticks s)) as (f & Hans & Hfa).
  unfold ValidateConfigs.bind.
  rewrite (safeCall_first chain (ValidateConfigs.factoryCall chain addr) 2 1000 s f (ValidateConfigs.tick s))
    by (unfold ValidateConfigs.factoryCall; rewrite Hans; reflexivity).
  cbn [truthy default from_option id]. rewrite Hfa.
  replace (negb (String.eqb f EmptyString)) with true
    by (destruct f; [discriminate Hfa|reflexivity]).
  eexists. split; [reflexivity|]. repeat split.
Qed.

Lemma routerLoop_healthy (chain : ValidateConfigs.Chain) :
  forall (rest cur : list (string * ValidateConfigs.JsValue)) (s : ValidateConfigs.State),
    Forall (healthy chain) rest ->
    exists cur' s',
      ValidateConfigs.routerLoop chain rest (ValidateConfigs.RProps cur, false) s
      = (Ok (ValidateConfigs.RProps cur', false), s') /\
      same_books s s'.
Proof.
  induction rest as [|[name addr] rest IH]; intros cur s H.
  - exists cur, s. split; [reflexivity|apply same_books_refl].
  - inversion H as [|? ? (cs & Hcs & Ha & Hf) Hrest]; subst. simpl in Hcs.
    rewrite routerLoop_cons. unfold ValidateConfigs.bind at 1. unfold ValidateConfigs.routerTurn. rewrite Hcs.
    unfold ValidateConfigs.bind at 1.
    destruct (validateRouter_healthy chain cs s Ha Hf) as (s1 & -> & Hb1).
    cbn [ValidateConfigs.ok negb]. unfold ValidateConfigs.bind at 1. unfold ValidateConfigs.lift, ValidateConfigs.ret.
    assert (Hassign : exists cur1, ValidateConfigs.assign (ValidateConfigs.RProps cur) name cs = Ok (ValidateConfigs.RProps cur1)).
    { unfold ValidateConfigs.assign. destruct (existsb _ cur); eauto. }
    destruct Hassign as (cur1 & ->).
    destruct (IH cur1 s1 Hrest) as (cur' & s' & -> & Hb2).
    exists cur', s'. split; [reflexivity|eapply same_books_trans; eauto].
Qed.

(** X29. When every router of the file has a checksummed address whose
    contract answers [factory()], [runOnce] writes nothing and alerts
    nobody: the checksummed forms it stores in memory are dropped, so an
    address kept in another spelling stays in the file as it is. *)
Theorem runOnce_healthy (chain : ValidateConfigs.Chain) (s : ValidateConfigs.State)
    (props : list (string * ValidateConfigs.JsValue)) :
  ValidateConfigs.routers_json s = ValidateConfigs.Holds (ValidateConfigs.RProps props) ->
  Forall (healthy chain) props ->
  exists s', ValidateConfigs.runOnce chain s = (Ok tt, s') /\ same_books s s'.
Proof.
  intros Hfile H. unfold ValidateConfigs.runOnce, ValidateConfigs.readJson.
  unfold ValidateConfigs.bind at 1. rewrite Hfile.
  unfold ValidateConfigs.bind at 1. unfold ValidateConfigs.lift. simpl ValidateConfigs.Object_entries.
  unfold ValidateConfigs.bind.
  destruct (routerLoop_healthy chain props props s H) as (cur' & s' & -> & Hb).
  simpl. exists s'. split; [reflexivity|exact Hb].
Qed.

(** The statement above on a file whose one router is spelled in lower
    case. *)
Lemma runOnce_healthy_witness :
  let s := ValidateConfigs.set_routers_json
             (ValidateConfigs.Holds (ValidateConfigs.RProps [("quickswap", ValidateConfigs.VString sample_router)]))
             validator_start in
  exists s', ValidateConfigs.runOnce sample_chain s = (Ok tt, s') /\ same_books s s'.
Proof.
  apply (runOnce_healthy sample_chain _ [("quickswap", ValidateConfigs.VString sample_router)]).
  - reflexivity.
  - repeat constructor. exists sample_router_checksummed.
    split; [reflexivity|]. split; [reflexivity|].
    intros p t. exists sample_factory. split; reflexivity.
Defined.
